(** * Verification of the KOFFIN battle plugins

    Two RPG Maker MV plugins are embedded here:

    - [KOFFIN_TargetRateFIx.js], which replaces [AIManager.setRandomTarget]
      by a weighted (roulette) choice of the target of an enemy action
      (module [TargetRate]);
    - [KOFFIN_InBattleStatus.js], the overlay [Window_ActorInfo] that draws
      the stats and states of the acting actor (module [InBattleStatus]).

    JavaScript numbers are modelled in exact arithmetic: integers as [Z],
    fractional quantities (target rates, text widths, hit rates) as [Q].
    [NaN], the infinities and rounding are therefore outside the model. *)

From Stdlib Require Import List ZArith QArith Qround Qabs Lqa Lia Bool.
From Stdlib Require Import Ascii String DecimalString.
Import ListNotations.

(* ================================================================== *)
(** * [AIManager.setRandomTarget] *)
(* ================================================================== *)

Module TargetRate.

Open Scope Q_scope.

(** A battler as far as the plugin looks at it: the [tgr] property, which
    may be [undefined] ([None]), and the result of its [index()] method. *)
Record Battler : Type := mkBattler {
  tgr : option Q;
  index : Z
}.

(** [target.tgr || 1.0]: [undefined] and [0] are falsy, every other number
    is kept as it is. *)
Definition targetWeight (target : Battler) : Q :=
  match tgr target with
  | None => 1
  | Some rate => if Qeq_bool rate 0 then 1 else rate
  end.

(** One iteration of the first loop (lines 18-23): the weight is pushed on
    [weights] and added to [totalWeight]. *)
Definition collectStep (acc : list Q * Q) (target : Battler) : list Q * Q :=
  let weight := targetWeight target in
  (fst acc ++ [weight], snd acc + weight).

(** The first loop, started from [weights = []] and [totalWeight = 0]. *)
Definition collectWeights (group : list Battler) : list Q * Q :=
  fold_left collectStep group ([], 0).

Definition weightsOf (group : list Battler) : list Q :=
  fst (collectWeights group).

Definition totalWeight (group : list Battler) : Q :=
  snd (collectWeights group).

(** The second loop (lines 29-35).  [remaining] counts the iterations still
    to run, [i] is the loop variable and [weightSum] the running sum.  The
    result is the position at which the loop returned, or [None] when it ran
    to completion.  [weights[i]] is always in range, since [weights] is as
    long as [group]. *)
Fixpoint pickLoop (randomValue : Q) (weights : list Q)
    (remaining i : nat) (weightSum : Q) : option nat :=
  match remaining with
  | O => None
  | S remaining' =>
      let weightSum' := weightSum + nth i weights 0 in
      if Qle_bool randomValue weightSum' then Some i
      else pickLoop randomValue weights remaining' (S i) weightSum'
  end.

(** The position selected by the accumulation walk for a given value of
    [Math.random()]. *)
Definition pickedPosition (group : list Battler) (rnd : Q) : option nat :=
  let '(weights, total) := collectWeights group in
  let randomValue := rnd * total in
  pickLoop randomValue weights (List.length group) 0%nat 0.

Section AIManager.

(** The action returned by [this.action()] and its [setTarget] method
    belong to the host engine; the plugin is verified for any of them. *)
Variable Action : Type.
Variable setTarget : Z -> Action -> Action.

(** [group[i].index()] passed to [setTarget]; [None] stands for the
    [TypeError] of a call on [undefined]. *)
Definition setTargetAt (group : list Battler) (i : nat) (act : Action)
  : option Action :=
  match nth_error group i with
  | Some target => Some (setTarget (index target) act)
  | None => None
  end.

(** [AIManager.setRandomTarget], with the value [rnd] of [Math.random()]
    as an argument. *)
Definition setRandomTarget (group : list Battler) (rnd : Q) (act : Action)
  : option Action :=
  if (List.length group <=? 0)%nat then Some act
  else
    match pickedPosition group rnd with
    | Some i => setTargetAt group i act
    | None => setTargetAt group 0 act
    end.

End AIManager.

(** ** Specification-level notions *)

(** Sum of a list of weights. *)
Fixpoint sumQ (ws : list Q) : Q :=
  match ws with
  | [] => 0
  | w :: ws' => w + sumQ ws'
  end.

(** Cumulative weight up to and including position [i]. *)
Definition cumulativeWeight (group : list Battler) (i : nat) : Q :=
  sumQ (map targetWeight (firstn (S i) group)).

(** The same on the array of weights. *)
Definition prefixSum (ws : list Q) (i : nat) : Q :=
  sumQ (firstn (S i) ws).

(** Position [i] is the first one whose cumulative weight reaches [r]. *)
Definition firstReaching (group : list Battler) (r : Q) (i : nat) : Prop :=
  (i < List.length group)%nat /\
  r <= cumulativeWeight group i /\
  forall j, (j < i)%nat -> ~ r <= cumulativeWeight group j.

End TargetRate.

(* ================================================================== *)
(** * [Window_ActorInfo] *)
(* ================================================================== *)

Module InBattleStatus.

Open Scope string_scope.
Open Scope Z_scope.

(** ** Plugin parameters (lines 36-41) *)

Definition windowWidth : Z := 480.
Definition windowHeight : Z := 300.
Definition windowX : Z := 240.
Definition windowY : Z := 100.
Definition slideSpeed : Z := 15.
Definition bgOpacity : Z := 255.

(** ** Game data read by the window *)

(** An entry of [$dataStates], with the fields the window itself reads. *)
Record State : Type := mkState {
  id : Z;
  name : string;
  note : string;
  iconIndex : Z;
  autoRemovalTiming : Z
}.

(** An equipped item. *)
Record Equip : Type := mkEquip {
  equipName : string
}.

(** A [Game_Actor] through the properties and methods the window calls.
    Elements of [equips()] and [states()] may be [null]; [stateTurns] may
    answer [undefined]. *)
Record Actor : Type := mkActor {
  actorName : string;
  equips : list (option Equip);
  level : Z;
  atk : Z;
  def : Z;
  agi : Z;
  luk : Z;
  hit : Q;
  eva : Q;
  paramBase : Z -> Z;
  paramPlus : Z -> Z;
  paramRate : Z -> Q;
  states : list (option State);
  isStateAffected : Z -> bool;
  stateTurns : Z -> option Z
}.

(** The fields of a [Window_ActorInfo] object. *)
Record Window : Type := mkWindow {
  _actor : option Actor;
  _visible : bool;
  _targetY : Z;
  _slideSpeed : Z;
  _stateColumns : Z;
  _isActive : bool;
  _lastStateCount : Z;
  width : Z;
  height : Z
}.

Definition set_stateColumns (cols : Z) (w : Window) : Window :=
  mkWindow (_actor w) (_visible w) (_targetY w) (_slideSpeed w) cols
           (_isActive w) (_lastStateCount w) (width w) (height w).

Definition set_lastStateCount (count : Z) (w : Window) : Window :=
  mkWindow (_actor w) (_visible w) (_targetY w) (_slideSpeed w)
           (_stateColumns w) (_isActive w) count (width w) (height w).

(** [Window_ActorInfo.prototype.initialize], after [Window_Base] has set the
    frame; [boxHeight] is the host's [Graphics.boxHeight]. *)
Definition initialize (boxHeight : Z) : Window :=
  mkWindow None false boxHeight slideSpeed 2 false 0 windowWidth windowHeight.

(** ** Calls on the window contents

    What the window does to its bitmap is recorded as the sequence of the
    calls it makes. *)
Inductive DrawCmd : Type :=
| Clear
| ChangeTextColor (colorIndex : Z)
| SetFontSize (size : Z)
| SetFontBold (bold : bool)
| DrawText (text : string) (x y maxWidth lineHeight : Z)
| DrawIcon (icon x y : Z)
| ResetFontSettings.

(** ** The monad of window methods

    A method reads and updates the window, issues drawing calls and either
    returns or raises a [TypeError]; the calls issued before the error stay
    issued. *)
Inductive Outcome (A : Type) : Type :=
| Returned (result : A) (w : Window) (calls : list DrawCmd)
| Raised (calls : list DrawCmd).

Arguments Returned {A} result w calls.
Arguments Raised {A} calls.

Definition Method (A : Type) : Type := Window -> Outcome A.

Definition ret {A : Type} (a : A) : Method A :=
  fun w => Returned a w [].

Definition bind {A B : Type} (m : Method A) (k : A -> Method B) : Method B :=
  fun w =>
    match m w with
    | Returned a w' calls =>
        match k a w' with
        | Returned b w'' calls' => Returned b w'' (calls ++ calls')%list
        | Raised calls' => Raised (calls ++ calls')%list
        end
    | Raised calls => Raised calls
    end.

Definition this : Method Window :=
  fun w => Returned w w [].

Definition update (f : Window -> Window) : Method unit :=
  fun w => Returned tt (f w) [].

Definition call (c : DrawCmd) : Method unit :=
  fun w => Returned tt w [c].

Definition typeError {A : Type} : Method A :=
  fun _ => Raised [].

Notation "x <- m ;; k" := (bind m (fun x => k))
  (at level 61, m at next level, right associativity).
Notation "m ;; k" := (bind m (fun _ => k))
  (at level 61, right associativity).

(** The calls issued by a method run on [w]. *)
Definition callsOf {A : Type} (m : Method A) (w : Window) : list DrawCmd :=
  match m w with
  | Returned _ _ calls => calls
  | Raised calls => calls
  end.

(** ** Strings *)

Definition isEmpty (s : string) : bool :=
  match s with
  | EmptyString => true
  | String _ _ => false
  end.

(** [String(n)] for an integer. *)
Definition numberToString (n : Z) : string :=
  NilZero.string_of_int (Z.to_int n).

(** [Math.round], on exact rationals. *)
Definition mathRound (x : Q) : Z :=
  Qfloor (x + (1 # 2)).

(** [s.split(' ')]: the pieces between single spaces; never an empty
    list. *)
Fixpoint splitOnSpace (s : string) : list string :=
  match s with
  | EmptyString => [EmptyString]
  | String c rest =>
      if Ascii.eqb c " "%char then EmptyString :: splitOnSpace rest
      else
        match splitOnSpace rest with
        | piece :: pieces => String c piece :: pieces
        | [] => [String c EmptyString]
        end
  end.

(** The canonical form of a character under the [i] flag of a regular
    expression: letters [a]-[z] become upper case. *)
Definition canonicalize (c : ascii) : ascii :=
  let n := nat_of_ascii c in
  if ((97 <=? n) && (n <=? 122))%nat then ascii_of_nat (n - 32) else c.

(** The literal [pattern] matches at the start of [s], case ignored. *)
Fixpoint matchesHere (pattern s : string) : bool :=
  match pattern, s with
  | EmptyString, _ => true
  | String _ _, EmptyString => false
  | String p pattern', String c s' =>
      Ascii.eqb (canonicalize p) (canonicalize c) && matchesHere pattern' s'
  end.

(** The literal [pattern] matches somewhere in [s], case ignored:
    [s.match(/pattern/i)] is not [null]. *)
Fixpoint matchesAnywhere (pattern s : string) : bool :=
  matchesHere pattern s ||
  match s with
  | EmptyString => false
  | String _ s' => matchesAnywhere pattern s'
  end.

(** ** Helper functions (lines 53-56) *)

(** The truth value of [isStateHiddenInMenu(state)]:
    [state.note && state.note.match(/<HideInStatus>/i)], and [false] for a
    [null] state. *)
Definition isStateHiddenInMenu (state : option State) : bool :=
  match state with
  | None => false
  | Some st =>
      negb (isEmpty (note st)) && matchesAnywhere "<HideInStatus>" (note st)
  end.

(** ** State filtering (lines 217-230) *)

(** The truth value of a state object. *)
Definition isPresent (state : option State) : bool :=
  match state with
  | Some _ => true
  | None => false
  end.

(** [filterStates(states)], where [states] itself may be [null]. *)
Definition filterStates (sts : option (list (option State)))
  : list (option State) :=
  match sts with
  | None => []
  | Some l =>
      filter (fun state => isPresent state && negb (isStateHiddenInMenu state)) l
  end.

Definition getFilteredStateCount (actor : option Actor) : Z :=
  match actor with
  | None => 0
  | Some a => Z.of_nat (List.length (filterStates (Some (states a))))
  end.

(** ** Geometry (lines 595-611) *)

Definition standardPadding : Z := 8.

Definition contentsWidth (w : Window) : Z :=
  width w - standardPadding * 2.

Definition contentsHeight (w : Window) : Z :=
  height w - standardPadding * 2.

(** ** Stat formatting (lines 320-338, 400-408) *)

Definition getBaseStat (actor : Actor) (paramId : Z) : Z :=
  paramBase actor paramId + paramPlus actor paramId.

Definition near (x target : Q) : bool :=
  negb (Qle_bool (1 # 1000) (Qabs (x - target))).

Definition convertMagicParamRate (rawRate : Q) : Q :=
  if negb (Qle_bool rawRate 1) then
    if near rawRate 4 then 115 # 100
    else if near rawRate 6 then 130 # 100
    else if near rawRate 8 then 150 # 100
    else 1
  else if negb (Qle_bool 1 rawRate) then
    if near rawRate (1 # 2) then 85 # 100
    else if near rawRate (1 # 4) then 70 # 100
    else if near rawRate (1 # 8) then 50 # 100
    else 1
  else 1.

(** The object built by [formatStat] and [formatRateStat]; [value] is kept
    as the text that is drawn. *)
Record StatEntry : Type := mkStatEntry {
  label : string;
  value : string;
  color : Z;
  arrow : string
}.

(** [formatStat(label, stat, base)]; [base] is [undefined] for the level,
    and every comparison with [undefined] is false. *)
Definition formatStat (lbl : string) (stat : Z) (base : option Z) : StatEntry :=
  let below := match base with Some b => stat <? b | None => false end in
  let above := match base with Some b => b <? stat | None => false end in
  mkStatEntry lbl (numberToString stat)
    (if below then 2 else if above then 3 else 0)
    (if below then "↓" else if above then "↑" else "").

Definition formatRateStat (lbl : string) (rate : Q) : StatEntry :=
  mkStatEntry lbl (numberToString (mathRound (rate * 100)) ++ "%") 0 "".

(** ** Word wrapping (lines 556-574) *)

(** [currentLine + (currentLine ? ' ' : '') + word]. *)
Definition extendLine (currentLine word : string) : string :=
  currentLine ++ (if isEmpty currentLine then "" else " ") ++ word.

Section Wrapping.

(** [this.contents.measureTextWidth] at the font in force, and the width
    available to the description. *)
Variable measure : string -> Q.
Variable maxWidth : Z.

Definition tooWide (line : string) : bool :=
  negb (Qle_bool (measure line) (inject_Z maxWidth)).

(** The loop over [words], from the state [(lines, currentLine)]; the
    [break] ends it as soon as three lines have been pushed. *)
Fixpoint wrapLoop (words : list string) (lines : list string)
    (currentLine : string) : list string * string :=
  match words with
  | [] => (lines, currentLine)
  | word :: words' =>
      let testLine := extendLine currentLine word in
      if tooWide testLine then
        let lines' := (lines ++ [currentLine])%list in
        if (3 <=? List.length lines')%nat then (lines', word)
        else wrapLoop words' lines' word
      else wrapLoop words' lines testLine
  end.

(** The lines of a description: the loop, then the push of the last line. *)
Definition wrapDescription (description : string) : list string :=
  let '(lines, currentLine) := wrapLoop (splitOnSpace description) [] "" in
  if negb (isEmpty currentLine) && (List.length lines <? 3)%nat
  then (lines ++ [currentLine])%list
  else lines.

End Wrapping.

(** ** Drawing methods *)

Section Drawing.

(** [getStateIconIndex] and [getStateDescription] (lines 118-166) read
    notetags with regular expressions and print floating-point numbers; the
    window is verified for whatever icon and text they answer.
    [measureTextWidth fontSize text] is the host's
    [this.contents.measureTextWidth(text)] at the font size in force. *)
Variable getStateIconIndex : State -> Z.
Variable getStateDescription : State -> Actor -> Z -> string.
Variable measureTextWidth : Z -> string -> Q.

(** [equips[slot] ? equips[slot].name : "NONE"]. *)
Definition equipLabel (eqs : list (option Equip)) (slot : nat) : string :=
  match nth_error eqs slot with
  | Some (Some e) => equipName e
  | _ => "NONE"
  end.

(** [drawHeader] (lines 343-374). *)
Definition drawHeader : Method unit :=
  w <- this ;;
  match _actor w with
  | None => ret tt
  | Some actor =>
      let x := 8 in
      let y := 8 in
      call (ChangeTextColor 0) ;;
      call (SetFontSize 24) ;;
      call (SetFontBold true) ;;
      call (DrawText (actorName actor) x y (contentsWidth w - 16) 28) ;;
      call (SetFontBold false) ;;
      let x := x + 124 in
      let weapon := equipLabel (equips actor) 0 in
      let charm := equipLabel (equips actor) 1 in
      call (SetFontSize 20) ;;
      call (ChangeTextColor 13) ;;
      call (DrawText "WEAPON: " x y 100 22) ;;
      call (ChangeTextColor 0) ;;
      call (DrawText weapon (x + 60) y 85 22) ;;
      call (ChangeTextColor 13) ;;
      call (DrawText "CHARM: " (x + 150) y 80 22) ;;
      call (ChangeTextColor 0) ;;
      call (DrawText charm (x + 205) y 120 22)
  end.

(** The loop over [line1Stats] (lines 420-436). *)
Fixpoint drawLine1Stats (stats : list StatEntry) (statX y fontSize statWidth : Z)
  : Method unit :=
  match stats with
  | [] => ret tt
  | stat :: stats' =>
      call (ChangeTextColor 0) ;;
      call (DrawText (label stat) statX y 40 (fontSize + 4)) ;;
      call (ChangeTextColor (color stat)) ;;
      let valueText :=
        if isEmpty (arrow stat) then value stat
        else value stat ++ " " ++ arrow stat in
      call (DrawText valueText (statX + 35) y 60 (fontSize + 4)) ;;
      drawLine1Stats stats' (statX + statWidth) y fontSize statWidth
  end.

(** The loop over [line2Stats] (lines 454-466). *)
Fixpoint drawLine2Stats (stats : list StatEntry) (statX y fontSize statWidth : Z)
  : Method unit :=
  match stats with
  | [] => ret tt
  | stat :: stats' =>
      call (ChangeTextColor 0) ;;
      call (DrawText (label stat) statX y 90 (fontSize + 4)) ;;
      call (ChangeTextColor 0) ;;
      call (DrawText (value stat) (statX + 85) y 60 (fontSize + 4)) ;;
      drawLine2Stats stats' (statX + statWidth) y fontSize statWidth
  end.

(** [drawStatsSection] (lines 379-469).  [displayedAtk] and [displayedDef]
    are computed by the source and never used. *)
Definition drawStatsSection : Method unit :=
  w <- this ;;
  match _actor w with
  | None => ret tt
  | Some actor =>
      let x := 20 in
      let y := 30 in
      let magicAtkRate := paramRate actor 4 in
      let magicDefRate := paramRate actor 5 in
      let displayedAtk :=
        mathRound (inject_Z (atk actor) * convertMagicParamRate magicAtkRate) in
      let displayedDef :=
        mathRound (inject_Z (def actor) * convertMagicParamRate magicDefRate) in
      let baseAtk := getBaseStat actor 2 in
      let baseDef := getBaseStat actor 3 in
      let baseAgi := getBaseStat actor 6 in
      let baseLuk := getBaseStat actor 7 in
      let fontSize := 22 in
      call (SetFontSize fontSize) ;;
      let line1Stats :=
        [ formatStat "LV: " (level actor) None;
          formatStat "ATK: " (atk actor) (Some baseAtk);
          formatStat "DEF: " (def actor) (Some baseDef);
          formatStat "SPD: " (agi actor) (Some baseAgi);
          formatStat "LUK: " (luk actor) (Some baseLuk) ] in
      drawLine1Stats line1Stats x y fontSize 85 ;;
      let y := y + (fontSize + 4) in
      let hasEva := negb (Qle_bool (eva actor) 0) in
      let line2Stats :=
        (formatRateStat "HIT RATE: " (hit actor) ::
         (if hasEva then [formatRateStat "EVASION: " (eva actor)] else []))%list in
      let statX := if hasEva then x + 75 else x + 125 in
      drawLine2Stats line2Stats statX y fontSize 125 ;;
      call ResetFontSettings
  end.

(** The loop that draws the wrapped lines (lines 577-583). *)
Fixpoint drawLines (lines : list string) (x lineY maxWidth lineHeight : Z)
  : Method unit :=
  match lines with
  | [] => ret tt
  | line :: lines' =>
      call (DrawText line x lineY maxWidth lineHeight) ;;
      drawLines lines' x (lineY + lineHeight) maxWidth lineHeight
  end.

(** The text for the turns that remain (lines 530-537);
    [stateTurns(stateId) || 0] turns [undefined] into [0]. *)
Definition turnTextOf (actor : Actor) (st : State) : string :=
  let stateId := id st in
  if isStateAffected actor stateId && (0 <? autoRemovalTiming st) then
    let turns :=
      match stateTurns actor stateId with
      | Some t => t
      | None => 0
      end in
    if 0 <? turns then " (" ++ numberToString turns ++ " TURNS)" else ""
  else "".

(** [drawState(state, x, y, width)] (lines 520-590).  [this._actor] is
    dereferenced without a test, which raises when there is no actor. *)
Definition drawState (state : option State) (x y cellWidth : Z) : Method unit :=
  match state with
  | None => ret tt
  | Some st =>
      let iconSize := 32 in
      call (DrawIcon (getStateIconIndex st) x y) ;;
      w <- this ;;
      match _actor w with
      | None => typeError
      | Some actor =>
          let turnText := turnTextOf actor st in
          call (ChangeTextColor 0) ;;
          call (SetFontSize (if 2 <? _stateColumns w then 16 else 18)) ;;
          call (SetFontBold true) ;;
          call (DrawText (name st ++ turnText) (x + iconSize + 4) y
                         (cellWidth - iconSize - 4) 18) ;;
          call (SetFontBold false) ;;
          let description := getStateDescription st actor (id st) in
          (if isEmpty description then ret tt
           else
             let fontSize := if 2 <? _stateColumns w then 14 else 16 in
             call (SetFontSize fontSize) ;;
             call (ChangeTextColor 0) ;;
             let maxWidth := cellWidth - iconSize - 8 in
             let lines :=
               wrapDescription (measureTextWidth fontSize) maxWidth description in
             drawLines (firstn (Nat.min (List.length lines) 3) lines)
                       (x + iconSize + 4) (y + 15) maxWidth 12) ;;
          call (ChangeTextColor 0)
      end
  end.

(** [stateCount > 9 ? 4 : stateCount > 6 ? 3 : 2]. *)
Definition columnsFor (stateCount : Z) : Z :=
  if 9 <? stateCount then 4 else if 6 <? stateCount then 3 else 2.

(** The loop over the filtered states (lines 505-514); [remaining] counts
    the iterations still to run and [i] is the loop variable. *)
Fixpoint drawStatesLoop (sts : list (option State)) (remaining i : nat)
    (x y colWidth rowHeight : Z) : Method unit :=
  match remaining with
  | O => ret tt
  | S remaining' =>
      w <- this ;;
      let state := nth i sts None in
      let col := Z.of_nat i mod _stateColumns w in
      let row := Z.of_nat i / _stateColumns w in
      let stateX := x + col * colWidth in
      let stateY := y + row * rowHeight in
      drawState state stateX stateY (colWidth - 8) ;;
      drawStatesLoop sts remaining' (S i) x y colWidth rowHeight
  end.

(** [drawStatesSection] (lines 474-515). *)
Definition drawStatesSection : Method unit :=
  w <- this ;;
  match _actor w with
  | None => ret tt
  | Some actor =>
      let x := 8 in
      let y := 85 in
      let sts := filterStates (Some (states actor)) in
      let stateCount := Z.of_nat (List.length sts) in
      if stateCount =? 0 then
        call (SetFontSize 24) ;;
        call (ChangeTextColor 0) ;;
        call (DrawText "NO EFFECTS ACTIVE" (x + 150) (y + 75)
                       (contentsWidth w - 16) 22)
      else
        call (SetFontSize 24) ;;
        call (ChangeTextColor 0) ;;
        call (DrawText ("STATES (" ++ numberToString stateCount ++ ")")
                       (x + 175) (y - 2) (contentsWidth w - 16) 22) ;;
        let y := y + 26 in
        update (set_stateColumns (columnsFor stateCount)) ;;
        w <- this ;;
        let colWidth := (contentsWidth w - 16) / _stateColumns w in
        let rowHeight := 60 in
        drawStatesLoop sts (List.length sts) 0 x y colWidth rowHeight
  end.

(** [refresh] (lines 307-315). *)
Definition refresh : Method unit :=
  w <- this ;;
  match _actor w with
  | None => ret tt
  | Some _ =>
      call Clear ;;
      drawHeader ;;
      drawStatsSection ;;
      drawStatesSection
  end.

(** [refreshIfNeeded] (lines 296-302). *)
Definition refreshIfNeeded : Method unit :=
  w <- this ;;
  let currentStateCount := getFilteredStateCount (_actor w) in
  if negb (currentStateCount =? _lastStateCount w) then
    update (set_lastStateCount currentStateCount) ;;
    refresh
  else ret tt.

End Drawing.

(** ** Specification-level notions *)

(** A word holds no space. *)
Fixpoint spaceFree (s : string) : Prop :=
  match s with
  | EmptyString => True
  | String c rest => c <> " "%char /\ spaceFree rest
  end.

Section GreedySpec.

Variable measure : string -> Q.
Variable maxWidth : Z.

(** Greedy line building without a bound on the number of lines: the next
    word joins the current line when the extended line fits, otherwise the
    current line is emitted and the word starts the next one; the line under
    construction is emitted at the end unless it is empty. *)
Fixpoint greedyLines (words : list string) (currentLine : string)
  : list string :=
  match words with
  | [] => if isEmpty currentLine then [] else [currentLine]
  | word :: words' =>
      if Qle_bool (measure (extendLine currentLine word)) (inject_Z maxWidth)
      then greedyLines words' (extendLine currentLine word)
      else currentLine :: greedyLines words' word
  end.

End GreedySpec.

(** The calls that draw [lines] one under the other from [lineY] on. *)
Definition lineCalls (lines : list string) (x lineY maxWidth : Z)
  : list DrawCmd :=
  map (fun '(l, line) =>
         DrawText line x (lineY + 12 * Z.of_nat l) maxWidth 12)
      (combine (seq 0 (List.length lines)) lines).

(** The number of columns as a function of the number of states. *)
Definition gridColumns (n : Z) : Z :=
  if 9 <? n then 4
  else if (6 <? n) && (n <=? 9) then 3
  else 2.

(** [canonicalize] on character codes. *)
Definition canonNat (n : nat) : nat :=
  if ((97 <=? n) && (n <=? 122))%nat then (n - 32)%nat else n.

(** Two characters are the same up to the case of a letter. *)
Definition isUpperLetter (c : ascii) : Prop :=
  (65 <= nat_of_ascii c <= 90)%nat.

Definition sameCharIgnoringCase (c d : ascii) : Prop :=
  c = d \/
  (isUpperLetter c /\ nat_of_ascii d = (nat_of_ascii c + 32)%nat) \/
  (isUpperLetter d /\ nat_of_ascii c = (nat_of_ascii d + 32)%nat).

Inductive sameIgnoringCase : string -> string -> Prop :=
| sic_empty : sameIgnoringCase EmptyString EmptyString
| sic_char (c d : ascii) (s t : string) :
    sameCharIgnoringCase c d -> sameIgnoringCase s t ->
    sameIgnoringCase (String c s) (String d t).

(** The note holds the tag [<HideInStatus>], in any case. *)
Definition hasHideTag (nt : string) : Prop :=
  exists before tag after,
    nt = before ++ tag ++ after /\ sameIgnoringCase "<HideInStatus>" tag.

(** [kept] is [all] without its [null] entries and without the states
    whose note holds the tag, in the same order. *)
Inductive Shown : list (option State) -> list (option State) -> Prop :=
| shown_nil : Shown [] []
| shown_null (all kept : list (option State)) :
    Shown all kept -> Shown (None :: all) kept
| shown_hidden (st : State) (all kept : list (option State)) :
    hasHideTag (note st) -> Shown all kept -> Shown (Some st :: all) kept
| shown_keep (st : State) (all kept : list (option State)) :
    ~ hasHideTag (note st) -> Shown all kept ->
    Shown (Some st :: all) (Some st :: kept).

End InBattleStatus.

(* ================================================================== *)
(** * Sample data *)
(* ================================================================== *)

Module Samples.

Import TargetRate InBattleStatus.
Local Open Scope string_scope.
Local Open Scope Z_scope.

(** A host action that remembers the index last given to [setTarget]. *)
Definition recordTarget (targetIndex : Z) (_ : option Z) : option Z :=
  Some targetIndex.

(** Four targets with the rates 0.5, [undefined], 0 and 2. *)
Definition party : list Battler :=
  [ mkBattler (Some (1 # 2)) 10; mkBattler None 11;
    mkBattler (Some 0%Q) 12; mkBattler (Some (2 # 1)) 13 ].

(** A single target with a negative rate. *)
Definition cursed : list Battler :=
  [ mkBattler (Some (-1 # 1)) 7 ].

Definition poison : State := mkState 4 "POISON" "" 17 2.
Definition secret : State :=
  mkState 9 "SECRET" "marker <hideINstatus> of the game" 0 0.
Definition asleep : State := mkState 6 "ASLEEP" "<Sleep>" 21 1.

Definition hero : Actor :=
  mkActor "OMORI" [Some (mkEquip "KNIFE"); None] 5 12 8 9 4 (95 # 100) 0%Q
    (fun _ => 10) (fun _ => 0) (fun _ => 1%Q)
    [Some poison; None; Some secret; Some asleep]
    (fun _ => true)
    (fun stateId => if stateId =? 4 then Some 3 else None).

(** The window while [hero] chooses a command. *)
Definition heroWindow : Window :=
  mkWindow (Some hero) true windowY slideSpeed 2 true (-1)
           windowWidth windowHeight.

Definition sampleIcon (st : State) : Z := iconIndex st.

Definition sampleDescription (st : State) (_ : Actor) (_ : Z) : string :=
  "LOSES HP AT THE END OF EVERY TURN".

(** A fixed-pitch font: every character is half the font size wide. *)
Definition sampleMeasure (fontSize : Z) (text : string) : Q :=
  inject_Z (fontSize / 2 * Z.of_nat (String.length text)).

End Samples.

(* ================================================================== *)
(** * Showing, hiding and updating the window *)
(* ================================================================== *)

Module WindowControl.

Import InBattleStatus.
Local Open Scope string_scope.
Local Open Scope Z_scope.

Definition set_actor (actor : option Actor) (w : Window) : Window :=
  mkWindow actor (_visible w) (_targetY w) (_slideSpeed w) (_stateColumns w)
           (_isActive w) (_lastStateCount w) (width w) (height w).

Definition set_visible (visible : bool) (w : Window) : Window :=
  mkWindow (_actor w) visible (_targetY w) (_slideSpeed w) (_stateColumns w)
           (_isActive w) (_lastStateCount w) (width w) (height w).

Definition set_targetY (targetY : Z) (w : Window) : Window :=
  mkWindow (_actor w) (_visible w) targetY (_slideSpeed w) (_stateColumns w)
           (_isActive w) (_lastStateCount w) (width w) (height w).

Definition set_isActive (active : bool) (w : Window) : Window :=
  mkWindow (_actor w) (_visible w) (_targetY w) (_slideSpeed w)
           (_stateColumns w) active (_lastStateCount w) (width w) (height w).

(** The slide of lines 282-285 on the [y] of the window, which belongs to
    the host's display object: when [y] is more than half a pixel from
    [_targetY] it moves to [(y * (speed - 1) + _targetY) / speed]. *)
Definition slide (y : Q) (w : Window) : Q :=
  if negb (Qle_bool (Qabs (y - inject_Z (_targetY w))) (1 # 2)) then
    let speed := inject_Z (_slideSpeed w) in
    (y * (speed - 1) + inject_Z (_targetY w)) / speed
  else y.

Section Control.

Variable getStateIconIndex : State -> Z.
Variable getStateDescription : State -> Actor -> Z -> string.
Variable measureTextWidth : Z -> string -> Q.

(** [Graphics.boxHeight], and the identity of two actor objects, which the
    host's heap decides. *)
Variable boxHeight : Z.
Variable sameActor : Actor -> Actor -> bool.

(** [this._actor === actor] for values that may be [null]. *)
Definition isSameActor (a b : option Actor) : bool :=
  match a, b with
  | None, None => true
  | Some x, Some y => sameActor x y
  | _, _ => false
  end.

(** [setActor] (lines 235-241). *)
Definition setActor (actor : option Actor) : Method unit :=
  w <- this ;;
  if negb (isSameActor (_actor w) actor) then
    update (set_actor actor) ;;
    update (set_lastStateCount (-1)) ;;
    refresh getStateIconIndex getStateDescription measureTextWidth
  else ret tt.

(** [showWindow] (lines 246-250). *)
Definition showWindow : Method unit :=
  w <- this ;;
  if negb (_isActive w) then ret tt
  else
    update (set_visible true) ;;
    update (set_targetY windowY).

(** [hideWindow] (lines 255-258). *)
Definition hideWindow : Method unit :=
  update (set_visible false) ;;
  update (set_targetY boxHeight).

(** [activate] (lines 263-265). *)
Definition activate : Method unit :=
  update (set_isActive true).

(** [deactivate] (lines 270-273). *)
Definition deactivate : Method unit :=
  update (set_isActive false) ;;
  hideWindow.

(** [Window_ActorInfo.prototype.update] (lines 278-291), from the current
    [y] to the new one.  The call of [Window_Base.prototype.update] is the
    host's and is taken not to touch the fields of the plugin. *)
Definition updateWindow (y : Q) : Method Q :=
  w <- this ;;
  let y' := slide y w in
  (if (match _actor w with Some _ => true | None => false end) && _visible w
   then refreshIfNeeded getStateIconIndex getStateDescription measureTextWidth
   else ret tt) ;;
  ret y'.

(** [createActorInfoWindow] (lines 628-632): the new window, hidden. *)
Definition createActorInfoWindow : Outcome unit :=
  hideWindow (initialize boxHeight).

(** What a frame reads from the host: whether the actor command window
    exists and is active, [BattleManager.actor()], and whether the control
    key is held. *)
Record Frame : Type := mkFrame {
  commandActive : bool;
  battleActor : option Actor;
  controlPressed : bool
}.

(** [Scene_Battle.prototype.update] (lines 637-657) after the host's own
    update. *)
Definition sceneUpdate (frame : Frame) (y : Q) : Method Q :=
  (if commandActive frame then
     match battleActor frame with
     | Some _ =>
         setActor (battleActor frame) ;;
         activate ;;
         (if controlPressed frame then showWindow else hideWindow)
     | None => ret tt
     end
   else deactivate) ;;
  updateWindow y.

(** [Scene_Battle.prototype.startActorCommandSelection] (lines 662-670)
    after the host's own method. *)
Definition startActorCommandSelection (actor : option Actor) : Method unit :=
  match actor with
  | Some _ => setActor actor ;; activate
  | None => ret tt
  end.

(** A battle scene as a sequence of frames, from the [y] and the window it
    starts with; [None] when a frame raises. *)
Fixpoint runFrames (frames : list Frame) (y : Q) (w : Window)
  : option (Q * Window) :=
  match frames with
  | [] => Some (y, w)
  | frame :: frames' =>
      match sceneUpdate frame y w with
      | Returned y' w' _ => runFrames frames' y' w'
      | Raised _ => None
      end
  end.

(** ** Specification-level notions *)

(** What holds of the window between two frames: it is visible only while
    active and with an actor, and it slides towards [windowY] when visible
    and towards the bottom of the screen when not. *)
Definition Consistent (w : Window) : Prop :=
  (_visible w = true -> _isActive w = true /\ _actor w <> None) /\
  _targetY w = (if _visible w then windowY else boxHeight).

End Control.

(** The positions of the icons among drawing calls. *)
Definition iconPositions (calls : list DrawCmd) : list (Z * Z) :=
  flat_map (fun c => match c with
                     | DrawIcon _ x y => [(x, y)]
                     | _ => []
                     end) calls.

(** The texts drawn among drawing calls. *)
Definition drawnTexts (calls : list DrawCmd) : list string :=
  flat_map (fun c => match c with
                     | DrawText text _ _ _ _ => [text]
                     | _ => []
                     end) calls.

(** The value of [_stateColumns] once the states section has been drawn for
    [actor]: it is set only when there is a state to show. *)
Definition columnsAfter (w : Window) (actor : Actor) : Z :=
  let n := Z.of_nat (List.length (filterStates (Some (states actor)))) in
  if n =? 0 then _stateColumns w else columnsFor n.

End WindowControl.

(* ================================================================== *)
(** * Further notions for the weighted choice *)
(* ================================================================== *)

Module TargetRateSpec.

Import TargetRate.
Local Open Scope Q_scope.

(** The group with every defined rate multiplied by [c]. *)
Definition scaleRates (c : Q) (group : list Battler) : list Battler :=
  map (fun target =>
         mkBattler (option_map (Qmult c) (tgr target)) (index target))
      group.

(** Every target has a rate that is defined and not zero. *)
Definition ratesSet (group : list Battler) : Prop :=
  Forall (fun target =>
            exists rate, tgr target = Some rate /\ ~ rate == 0) group.

End TargetRateSpec.

(* ================================================================== *)
(** * More sample data *)
(* ================================================================== *)

Module MoreSamples.

Import TargetRate InBattleStatus WindowControl Samples.
Local Open Scope string_scope.
Local Open Scope Z_scope.

(** Two actor objects are taken for the same when they carry the same
    name. *)
Definition sameName (a b : Actor) : bool :=
  String.eqb (actorName a) (actorName b).

(** An actor without equipment, with some evasion and thirteen states. *)
Definition stranger : Actor :=
  mkActor "STRANGER" [] 1 3 3 3 3 (9 # 10) (1 # 4)
    (fun _ => 3) (fun _ => 0) (fun _ => 1%Q)
    (repeat (Some poison) 13) (fun _ => false) (fun _ => None).

Definition strangerWindow : Window :=
  mkWindow (Some stranger) true windowY slideSpeed 2 true 0
           windowWidth windowHeight.

(** Two targets whose rates are both set. *)
Definition rated : list Battler :=
  [ mkBattler (Some (1 # 2)) 1; mkBattler (Some (3 # 1)) 2 ].

(** Two targets without rates. *)
Definition unrated : list Battler :=
  [ mkBattler None 3; mkBattler None 5 ].

(** Two targets with the rates -2 and 1: the total is negative, so no
    running sum reaches a draw taken with [Math.random() = 1/2]. *)
Definition hexed : list Battler :=
  [ mkBattler (Some (-2 # 1)) 7; mkBattler (Some (1 # 1)) 8 ].

End MoreSamples.

(* ================================================================== *)
(** * Facts about [AIManager.setRandomTarget] *)
(* ================================================================== *)

Module TargetRateFacts.

Import TargetRate Samples.
Open Scope Q_scope.

(** ** The first loop: [weights] and [totalWeight] *)

Lemma collect_fold (group : list Battler) (ws : list Q) (t : Q) :
  fold_left collectStep group (ws, t) =
  (ws ++ map targetWeight group, fold_left Qplus (map targetWeight group) t).
Proof.
  revert ws t. induction group as [|b g IH]; intros ws t.
  - simpl. now rewrite app_nil_r.
  - cbn [fold_left map].
    change (collectStep (ws, t) b) with (ws ++ [targetWeight b], t + targetWeight b).
    rewrite IH. now rewrite <- app_assoc.
Qed.

Lemma weightsOf_map group : weightsOf group = map targetWeight group.
Proof. unfold weightsOf, collectWeights. now rewrite collect_fold. Qed.

Lemma totalWeight_fold group :
  totalWeight group = fold_left Qplus (map targetWeight group) 0.
Proof. unfold totalWeight, collectWeights. now rewrite collect_fold. Qed.

(** ** Sums of weights *)

Lemma fold_left_Qplus_sumQ (ws : list Q) (s : Q) :
  fold_left Qplus ws s == s + sumQ ws.
Proof.
  revert s. induction ws as [|w ws IH]; intros s; simpl.
  - lra.
  - rewrite IH. lra.
Qed.

Lemma totalWeight_sumQ group : totalWeight group == sumQ (map targetWeight group).
Proof. rewrite totalWeight_fold, fold_left_Qplus_sumQ. lra. Qed.

Lemma sumQ_app (xs ys : list Q) : sumQ (xs ++ ys) == sumQ xs + sumQ ys.
Proof. induction xs as [|x xs IH]; simpl; [lra | rewrite IH; lra]. Qed.

Lemma firstn_succ_nth {A} (d : A) (l : list A) (i : nat) :
  (i < List.length l)%nat -> firstn (S i) l = firstn i l ++ [nth i l d].
Proof.
  revert i. induction l as [|x l IH]; intros i Hi; simpl in Hi; [lia|].
  destruct i as [|i]; [reflexivity|].
  change (firstn (S (S i)) (x :: l)) with (x :: firstn (S i) l).
  rewrite IH by lia. reflexivity.
Qed.

Lemma prefixSum_step ws i :
  (i < List.length ws)%nat -> prefixSum ws i == sumQ (firstn i ws) + nth i ws 0.
Proof.
  intros Hi. unfold prefixSum. rewrite (firstn_succ_nth 0) by exact Hi.
  rewrite sumQ_app. simpl. lra.
Qed.

(** ** The second loop

    Invariant: at the head of iteration [i] the running sum is the sum of
    the first [i] weights. *)

Lemma pickLoop_some r ws n i s k :
  (n + i = List.length ws)%nat -> s == sumQ (firstn i ws) ->
  pickLoop r ws n i s = Some k ->
  (i <= k < List.length ws)%nat /\ r <= prefixSum ws k /\
  forall j, (i <= j < k)%nat -> ~ r <= prefixSum ws j.
Proof.
  revert i s. induction n as [|n IH]; intros i s Hlen Hs H; simpl in H; [discriminate|].
  assert (Hi : (i < List.length ws)%nat) by lia.
  pose proof (prefixSum_step ws i Hi) as Hp.
  destruct (Qle_bool r (s + nth i ws 0)) eqn:E.
  - injection H as <-. apply Qle_bool_iff in E.
    repeat split; try lia. rewrite Hp, <- Hs. exact E.
  - apply IH in H; [| lia | rewrite Hs, <- Hp; reflexivity ].
    destruct H as (Hk & Hr & Hmin). repeat split; try lia; [exact Hr|].
    intros j Hj. destruct (Nat.eq_dec j i) as [->|Hne].
    + rewrite Hp, <- Hs. intros Hle. apply Qle_bool_iff in Hle. congruence.
    + apply Hmin. lia.
Qed.

Lemma pickLoop_none r ws n i s :
  (n + i = List.length ws)%nat -> s == sumQ (firstn i ws) ->
  pickLoop r ws n i s = None ->
  forall j, (i <= j < List.length ws)%nat -> ~ r <= prefixSum ws j.
Proof.
  revert i s. induction n as [|n IH]; intros i s Hlen Hs H j Hj; simpl in H; [lia|].
  assert (Hi : (i < List.length ws)%nat) by lia.
  pose proof (prefixSum_step ws i Hi) as Hp.
  destruct (Qle_bool r (s + nth i ws 0)) eqn:E; [discriminate|].
  destruct (Nat.eq_dec j i) as [->|Hne].
  - rewrite Hp, <- Hs. intros Hle. apply Qle_bool_iff in Hle. congruence.
  - apply (IH (S i) (s + nth i ws 0)); [lia | rewrite Hs, <- Hp; reflexivity | exact H | lia].
Qed.

(** ** The walk on a group *)

Lemma weightsOf_length group : List.length (weightsOf group) = List.length group.
Proof. rewrite weightsOf_map. apply length_map. Qed.

Lemma pickedPosition_eq group rnd :
  pickedPosition group rnd =
  pickLoop (rnd * totalWeight group) (weightsOf group) (List.length group) 0 0.
Proof.
  unfold pickedPosition, totalWeight, weightsOf.
  destruct (collectWeights group) as [ws t]. reflexivity.
Qed.

Lemma cumulativeWeight_prefixSum group i :
  cumulativeWeight group i = prefixSum (weightsOf group) i.
Proof.
  unfold cumulativeWeight, prefixSum. rewrite weightsOf_map.
  now rewrite firstn_map.
Qed.

Lemma prefixSum_last ws :
  ws <> [] -> prefixSum ws (List.length ws - 1) = sumQ ws.
Proof.
  intros Hne. unfold prefixSum.
  destruct ws as [|w ws]; [congruence|].
  replace (S (List.length (w :: ws) - 1)) with (List.length (w :: ws)) by (simpl; lia).
  now rewrite firstn_all.
Qed.

(** The walk returns the first position whose cumulative weight reaches the
    draw, and runs to completion only when no position does. *)
Lemma pickedPosition_some group rnd k :
  pickedPosition group rnd = Some k ->
  firstReaching group (rnd * totalWeight group) k.
Proof.
  rewrite pickedPosition_eq. intros H.
  apply pickLoop_some in H;
    [| rewrite weightsOf_length; lia | simpl; reflexivity ].
  destruct H as (Hk & Hr & Hmin). rewrite weightsOf_length in Hk.
  unfold firstReaching. repeat split.
  - lia.
  - now rewrite cumulativeWeight_prefixSum.
  - intros j Hj. rewrite cumulativeWeight_prefixSum. apply Hmin. lia.
Qed.

Lemma pickedPosition_none group rnd :
  pickedPosition group rnd = None ->
  forall j, (j < List.length group)%nat ->
            ~ rnd * totalWeight group <= cumulativeWeight group j.
Proof.
  rewrite pickedPosition_eq. intros H j Hj.
  rewrite cumulativeWeight_prefixSum.
  eapply pickLoop_none; [ | | exact H | ].
  - rewrite weightsOf_length; lia.
  - simpl; reflexivity.
  - rewrite weightsOf_length; lia.
Qed.

Lemma cumulativeWeight_last group :
  group <> [] ->
  cumulativeWeight group (List.length group - 1) == totalWeight group.
Proof.
  intros Hne. rewrite cumulativeWeight_prefixSum, <- weightsOf_length.
  rewrite prefixSum_last.
  - rewrite totalWeight_sumQ, weightsOf_map. reflexivity.
  - rewrite weightsOf_map. destruct group; [congruence | discriminate].
Qed.

Lemma pickedPosition_total group rnd :
  group <> [] ->
  rnd * totalWeight group <= totalWeight group ->
  exists k, pickedPosition group rnd = Some k /\ (k < List.length group)%nat.
Proof.
  intros Hne Hle.
  destruct (pickedPosition group rnd) as [k|] eqn:E.
  - exists k. split; [reflexivity|]. apply pickedPosition_some in E. apply E.
  - exfalso.
    apply (pickedPosition_none group rnd E (List.length group - 1)%nat).
    + destruct group; [congruence | simpl; lia].
    + rewrite cumulativeWeight_last by exact Hne. exact Hle.
Qed.

Lemma setRandomTarget_nonempty Action setTarget group rnd (act : Action) :
  group <> [] ->
  setRandomTarget Action setTarget group rnd act =
  match pickedPosition group rnd with
  | Some i => setTargetAt Action setTarget group i act
  | None => setTargetAt Action setTarget group 0 act
  end.
Proof.
  intros Hne. unfold setRandomTarget.
  destruct group; [congruence | reflexivity].
Qed.

(** C1.  For a non-empty group and a draw [r = rnd * totalWeight] with
    [0 <= r < totalWeight], [setRandomTarget] gives to [setTarget] the index
    of the first target, in list order, whose cumulative weight is greater
    than or equal to [r]. *)
Theorem setRandomTarget_first_reaching
    (Action : Type) (setTarget : Z -> Action -> Action)
    (group : list Battler) (rnd : Q) (act : Action) :
  group <> [] ->
  0 <= rnd * totalWeight group ->
  rnd * totalWeight group < totalWeight group ->
  exists i target,
    firstReaching group (rnd * totalWeight group) i /\
    nth_error group i = Some target /\
    setRandomTarget Action setTarget group rnd act =
      Some (setTarget (index target) act).
Proof.
  intros Hne _ Hlt.
  destruct (pickedPosition_total group rnd Hne) as (k & Hk & Hlen);
    [ now apply Qlt_le_weak |].
  destruct (nth_error group k) as [target|] eqn:Hnth;
    [| apply nth_error_None in Hnth; lia ].
  exists k, target. repeat split.
  - apply (pickedPosition_some _ _ _ Hk).
  - apply (pickedPosition_some _ _ _ Hk).
  - apply (pickedPosition_some _ _ _ Hk).
  - exact Hnth.
  - rewrite setRandomTarget_nonempty by exact Hne.
    rewrite Hk. unfold setTargetAt. now rewrite Hnth.
Qed.

(** C2.  For a non-empty group with non-negative weights, a positive total
    and a draw [r] with [0 <= r < totalWeight], the accumulation walk
    returns from inside the loop: a position is selected, and
    [setRandomTarget] sets the target from it, never from the trailing
    fallback. *)
Theorem walk_always_selects (group : list Battler) (rnd : Q) :
  group <> [] ->
  Forall (fun target => 0 <= targetWeight target) group ->
  0 < totalWeight group ->
  0 <= rnd * totalWeight group ->
  rnd * totalWeight group < totalWeight group ->
  exists i,
    pickedPosition group rnd = Some i /\ (i < List.length group)%nat /\
    forall (Action : Type) (setTarget : Z -> Action -> Action) (act : Action),
      setRandomTarget Action setTarget group rnd act =
      setTargetAt Action setTarget group i act.
Proof.
  intros Hne _ _ _ Hlt.
  destruct (pickedPosition_total group rnd Hne) as (k & Hk & Hlen);
    [ now apply Qlt_le_weak |].
  exists k. split; [exact Hk|]. split; [exact Hlen|].
  intros Action setTarget act.
  rewrite setRandomTarget_nonempty by exact Hne. now rewrite Hk.
Qed.

(** C3.  When the accumulation loop of a non-empty group runs to completion
    without selecting a position, [setRandomTarget] gives to [setTarget] the
    index of [group[0]]. *)
Theorem fallback_targets_first
    (Action : Type) (setTarget : Z -> Action -> Action)
    (first : Battler) (rest : list Battler) (rnd : Q) (act : Action) :
  pickedPosition (first :: rest) rnd = None ->
  setRandomTarget Action setTarget (first :: rest) rnd act =
  Some (setTarget (index first) act).
Proof.
  intros Hnone. unfold setRandomTarget. cbn [List.length Nat.leb].
  rewrite Hnone. reflexivity.
Qed.

(** ** Single weights *)

Lemma sumQ_split (ws : list Q) (i : nat) :
  sumQ ws == sumQ (firstn i ws) + sumQ (skipn i ws).
Proof. rewrite <- sumQ_app, firstn_skipn. reflexivity. Qed.

Lemma weightsOf_nth_error group i target :
  nth_error group i = Some target ->
  nth_error (weightsOf group) i = Some (targetWeight target).
Proof.
  intros H. rewrite weightsOf_map. now apply map_nth_error.
Qed.

Lemma pickLoop_unfold r ws remaining i s w :
  nth_error ws i = Some w ->
  pickLoop r ws (S remaining) i s =
  if Qle_bool r (s + w) then Some i else pickLoop r ws remaining (S i) (s + w).
Proof.
  intros H. cbn [pickLoop]. now rewrite (nth_error_nth _ _ 0 H).
Qed.

Lemma totalWeight_at group i target :
  nth_error group i = Some target ->
  totalWeight group ==
    sumQ (map targetWeight (firstn i group)) + targetWeight target +
    sumQ (map targetWeight (skipn (S i) group)).
Proof.
  intros H. rewrite totalWeight_sumQ.
  rewrite <- (firstn_skipn_middle i group H) at 1.
  rewrite map_app, sumQ_app. simpl. lra.
Qed.

(** C4.  A target whose [tgr] is [undefined] has the entry [1] in
    [weights]; that entry is what the total is made of and what the walk
    adds at that position. *)
Theorem undefined_rate_weighs_one
    (group : list Battler) (i : nat) (target : Battler) :
  nth_error group i = Some target ->
  tgr target = None ->
  nth_error (weightsOf group) i = Some 1 /\
  totalWeight group ==
    sumQ (map targetWeight (firstn i group)) + 1 +
    sumQ (map targetWeight (skipn (S i) group)) /\
  forall randomValue remaining weightSum,
    pickLoop randomValue (weightsOf group) (S remaining) i weightSum =
    if Qle_bool randomValue (weightSum + 1) then Some i
    else pickLoop randomValue (weightsOf group) remaining (S i) (weightSum + 1).
Proof.
  intros Hnth Hundef.
  assert (Hw : targetWeight target = 1) by (unfold targetWeight; now rewrite Hundef).
  pose proof (weightsOf_nth_error _ _ _ Hnth) as Hws. rewrite Hw in Hws.
  split; [exact Hws|]. split.
  - rewrite (totalWeight_at _ _ _ Hnth), Hw. reflexivity.
  - intros r remaining s. now apply pickLoop_unfold.
Qed.

Lemma sumQ_nonneg (ws : list Q) :
  Forall (fun w => 0 <= w) ws -> 0 <= sumQ ws.
Proof.
  induction 1 as [|w ws Hw _ IH]; simpl; lra.
Qed.

Lemma Forall_firstn_keeps {A} (P : A -> Prop) (l : list A) (n : nat) :
  Forall P l -> Forall P (firstn n l).
Proof.
  intros H. revert n. induction H as [|x l Hx _ IH]; intros [|n]; simpl; auto.
Qed.

Lemma Forall_skipn_keeps {A} (P : A -> Prop) (l : list A) (n : nat) :
  Forall P l -> Forall P (skipn n l).
Proof.
  intros H. revert n. induction H as [|x l Hx Hl IH]; intros [|n]; simpl; auto.
Qed.

Lemma prefixSum_mono (ws : list Q) (j k : nat) :
  Forall (fun w => 0 <= w) ws -> (j <= k)%nat ->
  prefixSum ws j <= prefixSum ws k.
Proof.
  intros Hpos Hjk. unfold prefixSum.
  replace (S k) with (S j + (k - j))%nat by lia.
  rewrite (sumQ_split (firstn (S j + (k - j)) ws) (S j)).
  rewrite firstn_firstn. replace (Init.Nat.min (S j) (S j + (k - j))) with (S j) by lia.
  assert (0 <= sumQ (skipn (S j) (firstn (S j + (k - j)) ws))).
  { apply sumQ_nonneg. apply Forall_skipn_keeps, Forall_firstn_keeps, Hpos. }
  lra.
Qed.

Lemma weightsOf_nonneg group :
  Forall (fun target => 0 <= targetWeight target) group ->
  Forall (fun w => 0 <= w) (weightsOf group).
Proof.
  intros H. rewrite weightsOf_map. induction H; simpl; constructor; auto.
Qed.

Lemma unit_weight_selectable (group : list Battler) (i : nat) :
  nth_error (weightsOf group) i = Some 1 ->
  Forall (fun target => 0 <= targetWeight target) group ->
  exists rnd, 0 <= rnd /\ rnd < 1 /\ pickedPosition group rnd = Some i.
Proof.
  intros Hnth Hpos. apply weightsOf_nonneg in Hpos.
  set (ws := weightsOf group) in *.
  assert (Hi : (i < List.length ws)%nat) by (apply nth_error_Some; congruence).
  assert (Hne : ws <> []) by (destruct ws; [simpl in Hi; lia | discriminate]).
  set (P := sumQ (firstn i ws)).
  assert (HP : 0 <= P) by (apply sumQ_nonneg, Forall_firstn_keeps, Hpos).
  assert (Hpi : prefixSum ws i == P + 1).
  { rewrite prefixSum_step by exact Hi. now rewrite (nth_error_nth _ _ 0 Hnth). }
  assert (HT : totalWeight group == sumQ ws).
  { rewrite totalWeight_sumQ. unfold ws. now rewrite weightsOf_map. }
  assert (HTge : P + 1 <= totalWeight group).
  { rewrite HT, <- Hpi, <- (prefixSum_last ws Hne).
    apply prefixSum_mono; [exact Hpos | lia]. }
  set (T := totalWeight group) in *.
  assert (HT0 : 0 < T) by lra.
  exists ((P + (1 # 2)) / T).
  assert (Hr : (P + (1 # 2)) / T * T == P + (1 # 2)).
  { rewrite Qmult_comm. apply Qmult_div_r. lra. }
  split; [| split].
  - apply Qle_shift_div_l; [exact HT0 | lra].
  - apply Qlt_shift_div_r; [exact HT0 | lra].
  - rewrite pickedPosition_eq. fold T. fold ws.
    assert (Hn : (List.length group + 0 = List.length ws)%nat)
      by (unfold ws; rewrite weightsOf_length; lia).
    assert (H0 : 0 == sumQ (firstn 0 ws)) by (simpl; reflexivity).
    destruct (pickLoop _ ws (List.length group) 0 0) as [k|] eqn:E.
    + destruct (pickLoop_some _ _ _ _ _ _ Hn H0 E) as (Hk & Hle & Hmin).
      f_equal. rewrite Hr in Hle.
      destruct (Nat.lt_trichotomy k i) as [Hlt | [Heq | Hgt]]; [| exact Heq |].
      * exfalso.
        assert (Hm : prefixSum ws k <= prefixSum ws (i - 1))
          by (apply prefixSum_mono; [exact Hpos | lia]).
        assert (Hp1 : prefixSum ws (i - 1) = P)
          by (unfold prefixSum, P; replace (S (i - 1)) with i by lia; reflexivity).
        rewrite Hp1 in Hm. lra.
      * exfalso. apply (Hmin i); [lia|]. rewrite Hr, Hpi. lra.
    + exfalso. apply (pickLoop_none _ _ _ _ _ Hn H0 E i); [lia|].
      rewrite Hr, Hpi. lra.
Qed.

(** C5.  A target whose [tgr] is [0] gets the weight [1], the weight of a
    target without [tgr]; with non-negative weights some value of
    [Math.random()] in [[0, 1)] selects it. *)
Theorem zero_rate_weighs_one
    (group : list Battler) (i : nat) (target : Battler) (rate : Q) :
  nth_error group i = Some target ->
  tgr target = Some rate ->
  rate == 0 ->
  targetWeight target = 1 /\
  targetWeight target = targetWeight (mkBattler None (index target)) /\
  nth_error (weightsOf group) i = Some 1 /\
  (Forall (fun b => 0 <= targetWeight b) group ->
   exists rnd, 0 <= rnd /\ rnd < 1 /\ pickedPosition group rnd = Some i).
Proof.
  intros Hnth Hrate Hzero.
  assert (Hw : targetWeight target = 1).
  { unfold targetWeight. rewrite Hrate.
    apply Qeq_bool_iff in Hzero. now rewrite Hzero. }
  pose proof (weightsOf_nth_error _ _ _ Hnth) as Hws. rewrite Hw in Hws.
  repeat split; try assumption.
  intros Hpos. now apply unit_weight_selectable.
Qed.

(** C9.  For the empty group [setRandomTarget] returns the action as it
    was, whatever [setTarget] would have done to it. *)
Theorem empty_group_unchanged
    (Action : Type) (setTarget : Z -> Action -> Action) (rnd : Q) (act : Action) :
  setRandomTarget Action setTarget [] rnd act = Some act.
Proof. reflexivity. Qed.

(** ** Runs on sample data *)

Example party_weights :
  weightsOf party = [1 # 2; 1; 1; 2 # 1] /\ totalWeight party == 9 # 2.
Proof. split; reflexivity. Qed.

Example party_draws :
  map (fun rnd => setRandomTarget (option Z) recordTarget party rnd None)
      [0; 1 # 9; 1 # 3; 1 # 2; 5 # 9; 99 # 100] =
  map (fun targetIndex => Some (Some targetIndex)) [10; 10; 11; 12; 12; 13]%Z.
Proof. reflexivity. Qed.

Example cursed_falls_back :
  pickedPosition cursed (1 # 2) = None /\
  setRandomTarget (option Z) recordTarget cursed (1 # 2) None = Some (Some 7%Z).
Proof. split; reflexivity. Qed.

Lemma setRandomTarget_first_reaching_witness :
  party <> [] /\
  0 <= (1 # 2) * totalWeight party /\
  (1 # 2) * totalWeight party < totalWeight party /\
  exists i target,
    firstReaching party ((1 # 2) * totalWeight party) i /\
    nth_error party i = Some target /\
    setRandomTarget (option Z) recordTarget party (1 # 2) None =
      Some (recordTarget (index target) None).
Proof.
  assert (H1 : party <> []) by discriminate.
  assert (H2 : 0 <= (1 # 2) * totalWeight party) by (vm_compute; discriminate).
  assert (H3 : (1 # 2) * totalWeight party < totalWeight party)
    by (vm_compute; reflexivity).
  repeat (split; [assumption|]).
  exact (setRandomTarget_first_reaching (option Z) recordTarget party (1 # 2)
           None H1 H2 H3).
Defined.

Lemma walk_always_selects_witness :
  exists i, pickedPosition party (1 # 2) = Some i /\
            (i < List.length party)%nat /\
            forall (Action : Type) (setTarget : Z -> Action -> Action)
                   (act : Action),
              setRandomTarget Action setTarget party (1 # 2) act =
              setTargetAt Action setTarget party i act.
Proof.
  apply (walk_always_selects party (1 # 2)).
  - discriminate.
  - repeat constructor; vm_compute; discriminate.
  - vm_compute; reflexivity.
  - vm_compute; discriminate.
  - vm_compute; reflexivity.
Defined.

Lemma fallback_targets_first_witness :
  pickedPosition MoreSamples.hexed (1 # 2) = None /\
  map index MoreSamples.hexed = [7; 8]%Z /\
  setRandomTarget (option Z) recordTarget MoreSamples.hexed (1 # 2) None =
  Some (recordTarget 7%Z None).
Proof.
  split; [reflexivity|]. split; [reflexivity|].
  apply (fallback_targets_first (option Z) recordTarget
           (mkBattler (Some (-2 # 1)) 7) [mkBattler (Some (1 # 1)) 8]
           (1 # 2) None).
  reflexivity.
Defined.

Lemma undefined_rate_weighs_one_witness :
  nth_error party 1 = Some (mkBattler None 11) /\
  tgr (mkBattler None 11) = None /\
  nth_error (weightsOf party) 1 = Some 1.
Proof.
  split; [reflexivity|]. split; [reflexivity|].
  apply (undefined_rate_weighs_one party 1 (mkBattler None 11));
    reflexivity.
Defined.

Lemma zero_rate_weighs_one_witness :
  nth_error party 2 = Some (mkBattler (Some 0) 12) /\
  tgr (mkBattler (Some 0) 12) = Some 0 /\
  0 == 0 /\
  targetWeight (mkBattler (Some 0) 12) = 1.
Proof.
  split; [reflexivity|]. split; [reflexivity|]. split; [reflexivity|].
  apply (zero_rate_weighs_one party 2 (mkBattler (Some 0) 12) 0);
    reflexivity.
Defined.

End TargetRateFacts.

(* ================================================================== *)
(** * Facts about [Window_ActorInfo] *)
(* ================================================================== *)

Module InBattleStatusFacts.

Import InBattleStatus Samples.
Open Scope string_scope.
Open Scope Z_scope.

(** ** Splitting and wrapping *)

Lemma splitOnSpace_nonempty (s : string) : splitOnSpace s <> [].
Proof.
  destruct s as [|c rest]; simpl; [discriminate|].
  destruct (Ascii.eqb c " "); [discriminate|].
  destruct (splitOnSpace rest); discriminate.
Qed.

Lemma concat_cons_char (c : ascii) (piece : string) (pieces : list string) :
  String.concat " " (String c piece :: pieces) =
  String c (String.concat " " (piece :: pieces)).
Proof. destruct pieces; reflexivity. Qed.

Lemma splitOnSpace_concat (s : string) :
  String.concat " " (splitOnSpace s) = s.
Proof.
  induction s as [|c rest IH]; [reflexivity|].
  cbn [splitOnSpace]. destruct (Ascii.eqb c " ") eqn:E.
  - apply Ascii.eqb_eq in E. subst c.
    pose proof (splitOnSpace_nonempty rest) as Hne.
    destruct (splitOnSpace rest) as [|p ps]; [congruence|].
    transitivity (String " " (String.concat " " (p :: ps)));
      [reflexivity | now rewrite IH].
  - pose proof (splitOnSpace_nonempty rest) as Hne.
    destruct (splitOnSpace rest) as [|p ps]; [congruence|].
    rewrite concat_cons_char. now rewrite IH.
Qed.

Lemma splitOnSpace_spaceFree (s : string) :
  Forall spaceFree (splitOnSpace s).
Proof.
  induction s as [|c rest IH]; simpl.
  - repeat constructor.
  - destruct (Ascii.eqb c " ") eqn:E.
    + constructor; [exact I | exact IH].
    + apply Ascii.eqb_neq in E.
      destruct (splitOnSpace rest) as [|p ps].
      * repeat constructor. exact E.
      * inversion IH; subst. constructor; [split; assumption | assumption].
Qed.

Section WrapFacts.
Variable measure : string -> Q.
Variable maxWidth : Z.

Lemma wrapLoop_greedy (words lines : list string) (currentLine : string) :
  (List.length lines < 3)%nat ->
  (let '(ls, cur) := wrapLoop measure maxWidth words lines currentLine in
   if negb (isEmpty cur) && (List.length ls <? 3)%nat
   then (ls ++ [cur])%list else ls) =
  firstn 3 (lines ++ greedyLines measure maxWidth words currentLine)%list.
Proof.
  revert lines currentLine. induction words as [|word words IH]; intros lines cur Hlen.
  - cbn [wrapLoop greedyLines].
    apply Nat.ltb_lt in Hlen as Hb. rewrite Hb, andb_true_r.
    destruct (isEmpty cur); cbn [negb].
    + rewrite app_nil_r. symmetry. apply firstn_all2. lia.
    + symmetry. apply firstn_all2. rewrite length_app. simpl. lia.
  - cbn [wrapLoop greedyLines]. unfold tooWide.
    destruct (Qle_bool (measure (extendLine cur word)) (inject_Z maxWidth)); cbn [negb].
    + apply IH. exact Hlen.
    + destruct (3 <=? List.length (lines ++ [cur]))%nat eqn:E3.
      * apply Nat.leb_le in E3. rewrite length_app in E3. simpl in E3.
        assert (Hl : List.length (lines ++ [cur]) = 3%nat)
          by (rewrite length_app; simpl; lia).
        rewrite Hl. cbn [Nat.ltb Nat.leb]. rewrite andb_false_r.
        change (cur :: greedyLines measure maxWidth words word)
          with ([cur] ++ greedyLines measure maxWidth words word)%list.
        rewrite app_assoc, firstn_app, Hl, Nat.sub_diag, firstn_O, app_nil_r. symmetry. apply firstn_all2. lia.
      * apply Nat.leb_gt in E3.
        rewrite IH by exact E3. now rewrite <- app_assoc.
Qed.

Lemma wrapDescription_greedy (description : string) :
  wrapDescription measure maxWidth description =
  firstn 3 (greedyLines measure maxWidth (splitOnSpace description) "").
Proof.
  unfold wrapDescription.
  exact (wrapLoop_greedy (splitOnSpace description) [] "" ltac:(simpl; lia)).
Qed.

Lemma wrapDescription_length (description : string) :
  (List.length (wrapDescription measure maxWidth description) <= 3)%nat.
Proof. rewrite wrapDescription_greedy. apply firstn_le_length. Qed.

End WrapFacts.

(** ** Running methods *)

Lemma bind_returned {A B : Type} (m : Method A) (k : A -> Method B)
    (w w' w'' : Window) (a : A) (b : B) (cs cs' : list DrawCmd) :
  m w = Returned a w' cs -> k a w' = Returned b w'' cs' ->
  bind m k w = Returned b w'' (cs ++ cs')%list.
Proof. intros Hm Hk. unfold bind. now rewrite Hm, Hk. Qed.

Lemma bind_call {B : Type} (c : DrawCmd) (k : unit -> Method B)
    (w w' : Window) (b : B) (cs : list DrawCmd) :
  k tt w = Returned b w' cs ->
  bind (call c) k w = Returned b w' (c :: cs).
Proof. intros Hk. unfold bind, call. now rewrite Hk. Qed.

Lemma lineCalls_cons (line : string) (lines : list string) (x lineY maxWidth : Z) :
  lineCalls (line :: lines) x lineY maxWidth =
  DrawText line x lineY maxWidth 12 :: lineCalls lines x (lineY + 12) maxWidth.
Proof.
  unfold lineCalls. cbn [List.length seq combine map].
  f_equal; [f_equal; lia|].
  generalize 0%nat as k. induction lines as [|l ls IH]; intros k; [reflexivity|].
  cbn [List.length seq combine map]. f_equal; [f_equal; lia | apply IH].
Qed.

Lemma drawLines_run (lines : list string) (x lineY maxWidth : Z) (w : Window) :
  drawLines lines x lineY maxWidth 12 w =
  Returned tt w (lineCalls lines x lineY maxWidth).
Proof.
  revert lineY. induction lines as [|line lines IH]; intros lineY; [reflexivity|].
  cbn [drawLines]. rewrite lineCalls_cons. apply bind_call, IH.
Qed.

(** ** Matching the notetag *)

Lemma canonicalize_nat (c : ascii) :
  nat_of_ascii (canonicalize c) = canonNat (nat_of_ascii c).
Proof.
  unfold canonicalize, canonNat.
  pose proof (nat_ascii_bounded c) as Hb.
  destruct ((97 <=? nat_of_ascii c) && (nat_of_ascii c <=? 122))%nat; [|reflexivity].
  apply nat_ascii_embedding. lia.
Qed.

Lemma nat_of_ascii_inj (c d : ascii) : nat_of_ascii c = nat_of_ascii d -> c = d.
Proof.
  intros H. rewrite <- (ascii_nat_embedding c), <- (ascii_nat_embedding d).
  now rewrite H.
Qed.

Lemma canonicalize_same (p c : ascii) :
  Ascii.eqb (canonicalize p) (canonicalize c) = true <->
  sameCharIgnoringCase p c.
Proof.
  rewrite Ascii.eqb_eq. unfold sameCharIgnoringCase, isUpperLetter.
  split.
  - intros H. apply (f_equal nat_of_ascii) in H.
    rewrite !canonicalize_nat in H. unfold canonNat in H.
    destruct (Nat.leb_spec 97 (nat_of_ascii p)), (Nat.leb_spec (nat_of_ascii p) 122),
      (Nat.leb_spec 97 (nat_of_ascii c)), (Nat.leb_spec (nat_of_ascii c) 122);
      cbn [andb] in H;
      first [ left; apply nat_of_ascii_inj; lia | right; right; lia | right; left; lia ].
  - intros H. apply nat_of_ascii_inj. rewrite !canonicalize_nat. unfold canonNat.
    destruct H as [-> | [[Hu Hd] | [Hu Hd]]]; [reflexivity | |];
      destruct (Nat.leb_spec 97 (nat_of_ascii p)), (Nat.leb_spec (nat_of_ascii p) 122),
        (Nat.leb_spec 97 (nat_of_ascii c)), (Nat.leb_spec (nat_of_ascii c) 122);
      cbn [andb]; lia.
Qed.

Lemma matchesHere_spec (pattern s : string) :
  matchesHere pattern s = true <->
  exists tag after, s = tag ++ after /\ sameIgnoringCase pattern tag.
Proof.
  revert s. induction pattern as [|p pattern IH]; intros s.
  - split; [|reflexivity]. intros _. exists "", s. split; [reflexivity | constructor].
  - destruct s as [|c s]; cbn [matchesHere].
    + split; [discriminate|]. intros (tag & after & Hs & Hsame).
      inversion Hsame; subst. discriminate.
    + rewrite andb_true_iff, canonicalize_same, IH. split.
      * intros (Hc & tag & after & -> & Hsame).
        exists (String c tag), after. split; [reflexivity | now constructor].
      * intros (tag & after & Hs & Hsame). inversion Hsame; subst.
        cbn in Hs. injection Hs as -> ->. split; [assumption|].
        now exists t, after.
Qed.

Lemma matchesAnywhere_spec (pattern s : string) :
  matchesAnywhere pattern s = true <->
  exists before tag after,
    s = before ++ tag ++ after /\ sameIgnoringCase pattern tag.
Proof.
  induction s as [|c s IH].
  - cbn [matchesAnywhere]. rewrite orb_false_r, matchesHere_spec. split.
    + intros (tag & after & Hs & Hsame). now exists "", tag, after.
    + intros ([|b before] & tag & after & Hs & Hsame); [|discriminate].
      now exists tag, after.
  - cbn [matchesAnywhere]. rewrite orb_true_iff, matchesHere_spec, IH. split.
    + intros [(tag & after & Hs & Hsame) | (before & tag & after & Hs & Hsame)].
      * now exists "", tag, after.
      * exists (String c before), tag, after. split; [|assumption].
        cbn. now rewrite Hs.
    + intros ([|b before] & tag & after & Hs & Hsame).
      * left. now exists tag, after.
      * right. cbn in Hs. injection Hs as -> ->. now exists before, tag, after.
Qed.

Lemma isStateHiddenInMenu_spec (st : State) :
  isStateHiddenInMenu (Some st) = true <-> hasHideTag (note st).
Proof.
  unfold hasHideTag. rewrite <- matchesAnywhere_spec.
  unfold isStateHiddenInMenu. destruct (note st); [|reflexivity].
  split; discriminate.
Qed.

(** ** The filter against its specification *)

Lemma filterStates_shown (all : list (option State)) :
  Shown all (filterStates (Some all)).
Proof.
  induction all as [|[st|] all IH]; cbn [filterStates filter isPresent andb].
  - constructor.
  - destruct (isStateHiddenInMenu (Some st)) eqn:E; cbn [negb].
    + apply shown_hidden; [now apply isStateHiddenInMenu_spec | exact IH].
    + apply shown_keep; [| exact IH].
      rewrite <- isStateHiddenInMenu_spec. congruence.
  - apply shown_null. exact IH.
Qed.

Lemma shown_unique (all kept : list (option State)) :
  Shown all kept -> kept = filterStates (Some all).
Proof.
  induction 1 as [| all kept _ IH | st all kept Hh _ IH | st all kept Hv _ IH];
    cbn [filterStates filter isPresent andb].
  - reflexivity.
  - exact IH.
  - apply isStateHiddenInMenu_spec in Hh. rewrite Hh. exact IH.
  - destruct (isStateHiddenInMenu (Some st)) eqn:E.
    + apply isStateHiddenInMenu_spec in E. contradiction.
    + cbn [negb]. f_equal. exact IH.
Qed.

Section DrawFacts.
Variable getStateIconIndex : State -> Z.
Variable getStateDescription : State -> Actor -> Z -> string.
Variable measureTextWidth : Z -> string -> Q.

Abbreviation drawState := (drawState getStateIconIndex getStateDescription measureTextWidth).

Lemma firstn_min_three {A} (l : list A) :
  (List.length l <= 3)%nat -> firstn (Nat.min (List.length l) 3) l = l.
Proof. intros H. apply firstn_all2. lia. Qed.

Lemma drawState_run (st : State) (x y cellWidth : Z) (w : Window) (actor : Actor) :
  _actor w = Some actor ->
  let description := getStateDescription st actor (id st) in
  let fontSize := if 2 <? _stateColumns w then 14 else 16 in
  let maxWidth := cellWidth - 32 - 8 in
  drawState (Some st) x y cellWidth w =
  Returned tt w
    ([ DrawIcon (getStateIconIndex st) x y;
       ChangeTextColor 0;
       SetFontSize (if 2 <? _stateColumns w then 16 else 18);
       SetFontBold true;
       DrawText (name st ++ turnTextOf actor st) (x + 32 + 4) y
                (cellWidth - 32 - 4) 18;
       SetFontBold false ] ++
     (if isEmpty description then []
      else
        [SetFontSize fontSize; ChangeTextColor 0] ++
        lineCalls (wrapDescription (measureTextWidth fontSize) maxWidth description)
                  (x + 32 + 4) (y + 15) maxWidth) ++
     [ChangeTextColor 0])%list.
Proof.
  intros Hactor description fontSize maxWidth.
  unfold InBattleStatus.drawState, bind, call, this, ret. rewrite Hactor.
  fold description. fold fontSize. fold maxWidth.
  destruct (isEmpty description).
  - reflexivity.
  - rewrite firstn_min_three by apply wrapDescription_length.
    rewrite drawLines_run. cbn [app]. reflexivity.
Qed.

Lemma drawState_returns (state : option State) (x y cellWidth : Z)
    (w : Window) (actor : Actor) :
  _actor w = Some actor ->
  drawState state x y cellWidth w =
  Returned tt w (callsOf (drawState state x y cellWidth) w).
Proof.
  intros Hactor. destruct state as [st|]; [|reflexivity].
  unfold callsOf. now rewrite (drawState_run st x y cellWidth w actor Hactor).
Qed.

Abbreviation refresh :=
  (refresh getStateIconIndex getStateDescription measureTextWidth).
Abbreviation refreshIfNeeded :=
  (refreshIfNeeded getStateIconIndex getStateDescription measureTextWidth).
Abbreviation drawStatesLoop :=
  (drawStatesLoop getStateIconIndex getStateDescription measureTextWidth).
Abbreviation drawStatesSection :=
  (drawStatesSection getStateIconIndex getStateDescription measureTextWidth).

Lemma drawStatesLoop_run (sts : list (option State)) (remaining i : nat)
    (x y colWidth rowHeight : Z) (w : Window) (actor : Actor) :
  _actor w = Some actor ->
  drawStatesLoop sts remaining i x y colWidth rowHeight w =
  Returned tt w
    (flat_map
       (fun j =>
          callsOf (drawState (nth j sts None)
                             (x + (Z.of_nat j mod _stateColumns w) * colWidth)
                             (y + (Z.of_nat j / _stateColumns w) * rowHeight)
                             (colWidth - 8)) w)
       (seq i remaining)).
Proof.
  intros Hactor. revert i.
  induction remaining as [|remaining IH]; intros i; [reflexivity|].
  cbn [InBattleStatus.drawStatesLoop seq flat_map].
  eapply (bind_returned this _ w w w w tt nil); [reflexivity|].
  eapply bind_returned; [ now apply drawState_returns with actor | apply IH ].
Qed.

Lemma gridColumns_columnsFor (n : Z) : columnsFor n = gridColumns n.
Proof.
  unfold columnsFor, gridColumns.
  destruct (9 <? n) eqn:E9; [reflexivity|].
  destruct (6 <? n); [|reflexivity].
  apply Z.ltb_ge in E9. apply Z.leb_le in E9. now rewrite E9.
Qed.

(** C7.  With [n > 0] filtered states the grid has [C] columns, [C = 4]
    for [n > 9], [3] for [6 < n <= 9] and [2] otherwise; state [i] is drawn
    by [drawState] in column [i mod C] and row [i / C], at
    [x = 8 + column * ((contentsWidth - 16) / C)] and
    [y = 111 + row * 60]. *)
Theorem states_grid_layout (w : Window) (actor : Actor) :
  _actor w = Some actor ->
  let sts := filterStates (Some (states actor)) in
  let n := Z.of_nat (List.length sts) in
  sts <> [] ->
  let C := gridColumns n in
  let colWidth := (contentsWidth w - 16) / C in
  let w' := set_stateColumns C w in
  drawStatesSection w =
  Returned tt w'
    ([ SetFontSize 24; ChangeTextColor 0;
       DrawText ("STATES (" ++ numberToString n ++ ")") (8 + 175) (85 - 2)
                (contentsWidth w - 16) 22 ] ++
     flat_map
       (fun i =>
          let column := Z.of_nat i mod C in
          let row := Z.of_nat i / C in
          callsOf (drawState (nth i sts None)
                             (8 + column * colWidth)
                             (85 + 26 + row * 60)
                             (colWidth - 8)) w')
       (seq 0 (List.length sts)))%list.
Proof.
  intros Hactor sts n Hne C colWidth w'.
  unfold InBattleStatus.drawStatesSection.
  eapply (bind_returned this _ w w w' w tt nil); [reflexivity|].
  rewrite Hactor. fold sts. fold n.
  assert (Hn : (n =? 0) = false).
  { apply Z.eqb_neq. unfold n. destruct sts; [congruence | simpl; lia]. }
  rewrite Hn, gridColumns_columnsFor. fold C.
  do 3 apply bind_call.
  eapply (bind_returned _ _ w w' w' tt tt nil); [reflexivity|].
  eapply (bind_returned this _ w' w' w' w' tt nil); [reflexivity|].
  exact (drawStatesLoop_run sts _ 0 8 (85 + 26) _ 60 w' actor Hactor).
Qed.

(** C8.  Without an actor [refresh], [drawHeader], [drawStatsSection] and
    [drawStatesSection] return at once: no call on the contents, no change
    of the window, no error; so does [drawState] for a [null] state; and
    [filterStates] answers the empty list for a [null] list. *)
Theorem absent_data_skips_drawing :
  (forall w : Window, _actor w = None ->
     refresh w = Returned tt w [] /\
     drawHeader w = Returned tt w [] /\
     drawStatsSection w = Returned tt w [] /\
     drawStatesSection w = Returned tt w []) /\
  (forall (w : Window) (x y cellWidth : Z),
     drawState None x y cellWidth w = Returned tt w []) /\
  filterStates None = [].
Proof.
  split; [| split; reflexivity].
  intros w Hnone.
  unfold InBattleStatus.refresh, InBattleStatus.drawHeader,
    InBattleStatus.drawStatsSection, InBattleStatus.drawStatesSection,
    bind, this.
  rewrite Hnone. repeat split; reflexivity.
Qed.

(** C6.  The description is split into the words between single spaces;
    the lines are the first three of the greedy line building, in which a
    word joins the current line when the extended line is not wider than the
    available width and otherwise the current line is emitted and the word
    starts the next one; at most three lines come out, and [drawState] draws
    exactly them, twelve pixels apart. *)
Theorem description_wrapped_greedily
    (w : Window) (actor : Actor) (st : State) (x y cellWidth : Z) :
  _actor w = Some actor ->
  let description := getStateDescription st actor (id st) in
  let fontSize := if 2 <? _stateColumns w then 14 else 16 in
  let maxWidth := cellWidth - 32 - 8 in
  let words := splitOnSpace description in
  let lines := wrapDescription (measureTextWidth fontSize) maxWidth description in
  String.concat " " words = description /\
  Forall spaceFree words /\
  lines = firstn 3 (greedyLines (measureTextWidth fontSize) maxWidth words "") /\
  (List.length lines <= 3)%nat /\
  drawState (Some st) x y cellWidth w =
  Returned tt w
    ([ DrawIcon (getStateIconIndex st) x y;
       ChangeTextColor 0;
       SetFontSize (if 2 <? _stateColumns w then 16 else 18);
       SetFontBold true;
       DrawText (name st ++ turnTextOf actor st) (x + 32 + 4) y
                (cellWidth - 32 - 4) 18;
       SetFontBold false ] ++
     (if isEmpty description then []
      else
        [SetFontSize fontSize; ChangeTextColor 0] ++
        lineCalls lines (x + 32 + 4) (y + 15) maxWidth) ++
     [ChangeTextColor 0])%list.
Proof.
  intros Hactor description fontSize maxWidth words lines.
  split; [apply splitOnSpace_concat|].
  split; [apply splitOnSpace_spaceFree|].
  split; [apply wrapDescription_greedy|].
  split; [apply wrapDescription_length|].
  exact (drawState_run st x y cellWidth w actor Hactor).
Qed.

(** [drawState] dereferences [this._actor] after the icon is drawn: with a
    state and no actor it raises. *)
Remark drawState_needs_actor (st : State) (x y cellWidth : Z) (w : Window) :
  _actor w = None ->
  drawState (Some st) x y cellWidth w =
  Raised [DrawIcon (getStateIconIndex st) x y].
Proof.
  intros Hnone. unfold InBattleStatus.drawState, bind, call, this, typeError.
  now rewrite Hnone.
Qed.

Lemma bind_update {B : Type} (f : Window -> Window) (k : unit -> Method B)
    (w : Window) :
  bind (update f) k w = k tt (f w).
Proof. unfold bind, update. destruct (k tt (f w)); reflexivity. Qed.

(** C10.  [filterStates] returns the input without its [null] entries and
    without the states whose note holds [<HideInStatus>] in any case, in the
    same order, and nothing else; every state returned occurs in the input;
    its length is what [getFilteredStateCount] answers, and
    [refreshIfNeeded] redraws exactly when that count differs from
    [_lastStateCount]. *)
Theorem filterStates_keeps_shown_states (all : list (option State)) :
  Shown all (filterStates (Some all)) /\
  (forall kept, Shown all kept -> kept = filterStates (Some all)) /\
  (forall state, In state (filterStates (Some all)) ->
                 In state all /\ state <> None) /\
  (forall actor, states actor = all ->
     let count := Z.of_nat (List.length (filterStates (Some all))) in
     getFilteredStateCount (Some actor) = count /\
     forall w, _actor w = Some actor ->
       refreshIfNeeded w =
       if count =? _lastStateCount w then Returned tt w []
       else refresh (set_lastStateCount count w)).
Proof.
  split; [apply filterStates_shown|].
  split; [apply shown_unique|].
  split.
  - intros state Hin. cbn [filterStates] in Hin.
    apply filter_In in Hin. destruct Hin as [Hin Hkeep].
    split; [exact Hin|]. destruct state; [discriminate | discriminate Hkeep].
  - intros actor Hstates count.
    assert (Hcount : getFilteredStateCount (Some actor) = count)
      by (unfold getFilteredStateCount, count; now rewrite Hstates).
    split; [exact Hcount|].
    intros w Hactor. unfold InBattleStatus.refreshIfNeeded.
    unfold bind at 1. unfold this at 1. rewrite Hactor, Hcount.
    destruct (count =? _lastStateCount w); cbn [negb].
    + reflexivity.
    + rewrite bind_update. cbn [app].
      destruct (refresh (set_lastStateCount count w)); reflexivity.
Qed.

End DrawFacts.

(** ** Runs on sample data *)

Example split_examples :
  splitOnSpace "LOSES HP" = ["LOSES"; "HP"] /\
  splitOnSpace "A  B " = ["A"; ""; "B"; ""] /\
  splitOnSpace "" = [""].
Proof. repeat split. Qed.

Example wrap_stops_at_three_lines :
  wrapDescription (sampleMeasure 16) 40 "ONE TWO THREE FOUR FIVE SIX" =
  ["ONE"; "TWO"; "THREE"].
Proof. reflexivity. Qed.

Example wrap_wide_first_word :
  wrapDescription (sampleMeasure 16) 40 "ABCDEFGH IJ" = [""; "ABCDEFGH"; "IJ"].
Proof. reflexivity. Qed.

Example hidden_states :
  map (fun st => isStateHiddenInMenu (Some st)) [poison; secret; asleep] =
  [false; true; false].
Proof. reflexivity. Qed.

Example hero_filtered_states :
  filterStates (Some (states hero)) = [Some poison; Some asleep].
Proof. reflexivity. Qed.

(** Seven visible states are laid out on three columns. *)
Example seven_states_icons :
  let crowd :=
    mkActor "AUBREY" [] 1 1 1 1 1 1%Q 0%Q (fun _ => 1) (fun _ => 0)
            (fun _ => 1%Q) (repeat (Some poison) 7) (fun _ => false)
            (fun _ => None) in
  let w := mkWindow (Some crowd) true windowY slideSpeed 2 true 0
                    windowWidth windowHeight in
  flat_map (fun c => match c with DrawIcon _ x y => [(x, y)] | _ => [] end)
           (callsOf (drawStatesSection sampleIcon sampleDescription sampleMeasure) w) =
  [(8, 111); (157, 111); (306, 111); (8, 171); (157, 171); (306, 171); (8, 231)].
Proof. reflexivity. Qed.

Lemma description_wrapped_greedily_witness :
  _actor heroWindow = Some hero /\
  drawState sampleIcon sampleDescription sampleMeasure (Some poison) 8 111 216
            heroWindow =
  Returned tt heroWindow
    [ DrawIcon 17 8 111; ChangeTextColor 0; SetFontSize 18; SetFontBold true;
      DrawText "POISON (3 TURNS)" 44 111 180 18; SetFontBold false;
      SetFontSize 16; ChangeTextColor 0;
      DrawText "LOSES HP AT THE END OF" 44 126 176 12;
      DrawText "EVERY TURN" 44 138 176 12;
      ChangeTextColor 0 ].
Proof.
  split; [reflexivity|].
  destruct (description_wrapped_greedily sampleIcon sampleDescription
              sampleMeasure heroWindow hero poison 8 111 216 eq_refl)
    as (_ & _ & _ & _ & Hrun).
  rewrite Hrun. reflexivity.
Defined.

Lemma states_grid_layout_witness :
  _actor heroWindow = Some hero /\
  filterStates (Some (states hero)) <> [] /\
  drawStatesSection sampleIcon sampleDescription sampleMeasure heroWindow =
  Returned tt (set_stateColumns 2 heroWindow)
    ([ SetFontSize 24; ChangeTextColor 0;
       DrawText "STATES (2)" 183 83 448 22 ] ++
     callsOf (drawState sampleIcon sampleDescription sampleMeasure
                        (Some poison) 8 111 216)
             (set_stateColumns 2 heroWindow) ++
     callsOf (drawState sampleIcon sampleDescription sampleMeasure
                        (Some asleep) 232 111 216)
             (set_stateColumns 2 heroWindow))%list.
Proof.
  split; [reflexivity|]. split; [discriminate|].
  rewrite (states_grid_layout sampleIcon sampleDescription sampleMeasure
             heroWindow hero eq_refl); [reflexivity | discriminate].
Defined.

Lemma absent_data_skips_drawing_witness :
  refresh sampleIcon sampleDescription sampleMeasure (initialize 624) =
  Returned tt (initialize 624) [].
Proof.
  apply (proj1 (absent_data_skips_drawing sampleIcon sampleDescription
                  sampleMeasure) (initialize 624)).
  reflexivity.
Defined.

Lemma filterStates_keeps_shown_states_witness :
  In (Some asleep) (states hero) /\ Some asleep <> None.
Proof.
  apply (proj1 (proj2 (proj2
           (filterStates_keeps_shown_states sampleIcon sampleDescription
              sampleMeasure (states hero))))).
  right; left; reflexivity.
Defined.

End InBattleStatusFacts.

(* ================================================================== *)
(** * More facts about [AIManager.setRandomTarget] *)
(* ================================================================== *)

Module TargetRateMore.

Import TargetRate TargetRateSpec TargetRateFacts Samples MoreSamples.
Open Scope Q_scope.

(** ** The interval of draws of a position *)

Lemma cumulativeWeight_mono (group : list Battler) (j k : nat) :
  Forall (fun target => 0 <= targetWeight target) group ->
  (j <= k)%nat -> cumulativeWeight group j <= cumulativeWeight group k.
Proof.
  intros Hpos Hjk. rewrite !cumulativeWeight_prefixSum.
  apply prefixSum_mono; [now apply weightsOf_nonneg | exact Hjk].
Qed.

(** X1.  With non-negative weights, position [i] is selected exactly by the
    draws [r] with [cumulativeWeight (i - 1) < r <= cumulativeWeight i]
    (only the upper bound for [i = 0]): an interval as long as the weight
    of the target. *)
Theorem position_drawn_on_its_interval
    (group : list Battler) (rnd : Q) (i : nat) :
  Forall (fun target => 0 <= targetWeight target) group ->
  let r := rnd * totalWeight group in
  pickedPosition group rnd = Some i <->
  (i < List.length group)%nat /\
  r <= cumulativeWeight group i /\
  (i = 0%nat \/ cumulativeWeight group (i - 1) < r).
Proof.
  intros Hpos r. split.
  - intros H. apply pickedPosition_some in H. destruct H as (Hi & Hle & Hmin).
    repeat split; try assumption.
    destruct i as [|i]; [now left | right].
    replace (S i - 1)%nat with i by lia.
    apply Qnot_le_lt. apply Hmin. lia.
  - intros (Hi & Hle & Hprev).
    destruct (pickedPosition group rnd) as [k|] eqn:E.
    + f_equal. pose proof (pickedPosition_some _ _ _ E) as (Hk & Hkle & Hmin).
      fold r in Hkle, Hmin.
      destruct (Nat.lt_trichotomy k i) as [Hlt | [Heq | Hgt]]; [| exact Heq |].
      * exfalso. destruct Hprev as [-> | Hprev]; [lia|].
        pose proof (cumulativeWeight_mono group k (i - 1) Hpos ltac:(lia)) as Hm.
        apply (Qle_not_lt _ _ (Qle_trans _ _ _ Hkle Hm)). exact Hprev.
      * exfalso. now apply (Hmin i).
    + exfalso. now apply (pickedPosition_none group rnd E i).
Qed.

(** ** Groups without rates *)

Lemma sumQ_ones (ws : list Q) :
  Forall (fun w => w = 1) ws -> sumQ ws == inject_Z (Z.of_nat (List.length ws)).
Proof.
  induction 1 as [|w ws -> _ IH]; [reflexivity|].
  cbn [sumQ List.length]. rewrite IH, Nat2Z.inj_succ. unfold Z.succ.
  rewrite inject_Z_plus. change (inject_Z 1) with 1. lra.
Qed.

Lemma default_weights (group : list Battler) :
  Forall (fun target => tgr target = None) group ->
  Forall (fun w => w = 1) (map targetWeight group).
Proof.
  induction 1 as [|b g Hb _ IH]; constructor; [|exact IH].
  unfold targetWeight. now rewrite Hb.
Qed.

(** X2.  When no target has a [tgr], position [i] of [n] targets is selected
    exactly when [i < rnd * n <= i + 1] (or [rnd * n <= 1] for [i = 0]). *)
Theorem default_rates_draw_uniformly
    (group : list Battler) (rnd : Q) (i : nat) :
  Forall (fun target => tgr target = None) group ->
  let n := inject_Z (Z.of_nat (List.length group)) in
  pickedPosition group rnd = Some i <->
  (i < List.length group)%nat /\
  rnd * n <= inject_Z (Z.of_nat i) + 1 /\
  (i = 0%nat \/ inject_Z (Z.of_nat i) < rnd * n).
Proof.
  intros Hnone n.
  assert (Hones := default_weights group Hnone).
  assert (Hpos : Forall (fun target => 0 <= targetWeight target) group).
  { apply Forall_forall. intros b Hb. rewrite Forall_forall in Hnone.
    unfold targetWeight. rewrite (Hnone b Hb). lra. }
  assert (Htot : totalWeight group == n).
  { rewrite totalWeight_sumQ, (sumQ_ones _ Hones), length_map. reflexivity. }
  assert (Hcum : forall j, (j < List.length group)%nat ->
                           cumulativeWeight group j == inject_Z (Z.of_nat j) + 1).
  { intros j Hj. unfold cumulativeWeight. rewrite <- firstn_map.
    rewrite sumQ_ones by (apply Forall_firstn_keeps, Hones).
    rewrite length_firstn, length_map, Nat.min_l by lia.
    rewrite Nat2Z.inj_succ. unfold Z.succ. rewrite inject_Z_plus.
    change (inject_Z 1) with 1. lra. }
  rewrite (position_drawn_on_its_interval group rnd i Hpos).
  assert (Hprev_eq :
            (i < List.length group)%nat ->
            (i = 0%nat \/ cumulativeWeight group (i - 1) < rnd * totalWeight group) <->
            (i = 0%nat \/ inject_Z (Z.of_nat i) < rnd * n)).
  { intros Hi. destruct i as [|i]; [split; intros _; now left|].
    replace (S i - 1)%nat with i by lia.
    split; (intros [Hz | Hlt]; [discriminate Hz | right]).
    - rewrite Hcum, Htot in Hlt by lia.
      rewrite Nat2Z.inj_succ. unfold Z.succ. rewrite inject_Z_plus.
      change (inject_Z 1) with 1. exact Hlt.
    - rewrite Hcum, Htot by lia.
      rewrite Nat2Z.inj_succ in Hlt. unfold Z.succ in Hlt.
      rewrite inject_Z_plus in Hlt. change (inject_Z 1) with 1 in Hlt. exact Hlt. }
  split; intros (Hi & Hle & Hprev); (split; [exact Hi|]);
    (split; [| now apply (Hprev_eq Hi)]).
  - rewrite Hcum, Htot in Hle by exact Hi. exact Hle.
  - rewrite Hcum, Htot by exact Hi. exact Hle.
Qed.

(** ** The call of [setTarget] *)

(** X3.  For a non-empty group, whatever the rates and the draw,
    [setRandomTarget] does not raise and gives to [setTarget] the index of a
    member of the group. *)
Theorem setRandomTarget_targets_member
    (Action : Type) (setTarget : Z -> Action -> Action)
    (group : list Battler) (rnd : Q) (act : Action) :
  group <> [] ->
  exists target,
    In target group /\
    setRandomTarget Action setTarget group rnd act =
    Some (setTarget (index target) act).
Proof.
  intros Hne. rewrite setRandomTarget_nonempty by exact Hne.
  destruct (pickedPosition group rnd) as [k|] eqn:E.
  - apply pickedPosition_some in E. destruct E as (Hk & _).
    destruct (nth_error group k) as [target|] eqn:Hnth;
      [| apply nth_error_None in Hnth; lia ].
    exists target. split; [now apply nth_error_In with k|].
    unfold setTargetAt. now rewrite Hnth.
  - destruct group as [|first rest]; [congruence|].
    exists first. split; [now left | reflexivity].
Qed.

(** ** Scaling the rates *)

Lemma scaled_weight (c : Q) (target : Battler) (rate : Q) :
  ~ c == 0 -> tgr target = Some rate -> ~ rate == 0 ->
  targetWeight (mkBattler (option_map (Qmult c) (tgr target)) (index target)) =
  c * targetWeight target.
Proof.
  intros Hc Hrate Hnz. unfold targetWeight. rewrite Hrate. cbn.
  destruct (Qeq_bool rate 0) eqn:E; [apply Qeq_bool_iff in E; contradiction|].
  destruct (Qeq_bool (c * rate) 0) eqn:E'; [|reflexivity].
  apply Qeq_bool_iff in E'. apply Qmult_integral in E'. tauto.
Qed.

Lemma scaled_weights (c : Q) (group : list Battler) :
  ~ c == 0 -> ratesSet group ->
  weightsOf (scaleRates c group) = map (Qmult c) (weightsOf group).
Proof.
  intros Hc Hset. rewrite !weightsOf_map. unfold scaleRates.
  rewrite map_map. induction Hset as [|b g (rate & Hrate & Hnz) _ IH];
    [reflexivity|].
  cbn [map]. rewrite IH. f_equal. now apply scaled_weight with rate.
Qed.

Lemma nth_scaled (c : Q) (ws : list Q) (j : nat) :
  nth j (map (Qmult c) ws) 0 == c * nth j ws 0.
Proof.
  revert j. induction ws as [|w ws IH]; intros [|j]; cbn [map nth];
    try lra; try reflexivity. apply IH.
Qed.

Lemma sumQ_scaled (c : Q) (ws : list Q) :
  sumQ (map (Qmult c) ws) == c * sumQ ws.
Proof. induction ws as [|w ws IH]; cbn [map sumQ]; [lra | rewrite IH; lra]. Qed.

Lemma pickLoop_scaled (c r r' : Q) (ws ws' : list Q) (n i : nat) (s s' : Q) :
  0 < c -> r' == c * r -> s' == c * s ->
  (forall j, nth j ws' 0 == c * nth j ws 0) ->
  pickLoop r' ws' n i s' = pickLoop r ws n i s.
Proof.
  intros Hc Hr Hs Hnth. revert i s s' Hs.
  induction n as [|n IH]; intros i s s' Hs; [reflexivity|].
  cbn [pickLoop].
  assert (Hsum : s' + nth i ws' 0 == c * (s + nth i ws 0))
    by (rewrite Hs, Hnth; lra).
  assert (Hiff : r' <= s' + nth i ws' 0 <-> r <= s + nth i ws 0).
  { rewrite Hr, Hsum. apply Qmult_le_l. exact Hc. }
  rewrite <- !Qle_bool_iff in Hiff.
  destruct (Qle_bool r' (s' + nth i ws' 0)), (Qle_bool r (s + nth i ws 0));
    try reflexivity.
  - destruct Hiff as [H _]. discriminate (H eq_refl).
  - destruct Hiff as [_ H]. discriminate (H eq_refl).
  - apply IH. exact Hsum.
Qed.

(** X4.  When every rate is set and not zero, multiplying all rates by the
    same positive factor does not change the position selected. *)
Theorem scaling_rates_keeps_choice
    (c : Q) (group : list Battler) (rnd : Q) :
  0 < c -> ratesSet group ->
  pickedPosition (scaleRates c group) rnd = pickedPosition group rnd.
Proof.
  intros Hc Hset. assert (Hc0 : ~ c == 0) by lra.
  rewrite !pickedPosition_eq.
  unfold scaleRates at 3. rewrite length_map.
  pose proof (scaled_weights c group Hc0 Hset) as Hws.
  apply pickLoop_scaled with c.
  - exact Hc.
  - rewrite !totalWeight_sumQ, <- !weightsOf_map, Hws, sumQ_scaled. lra.
  - lra.
  - intros j. rewrite Hws. apply nth_scaled.
Qed.

(** ** Runs on sample data *)

Lemma position_drawn_on_its_interval_witness :
  Forall (fun target => 0 <= targetWeight target) party /\
  (pickedPosition party (1 # 2) = Some 2%nat <->
   (2 < List.length party)%nat /\
   (1 # 2) * totalWeight party <= cumulativeWeight party 2 /\
   (2%nat = 0%nat \/ cumulativeWeight party (2 - 1) < (1 # 2) * totalWeight party)).
Proof.
  assert (H : Forall (fun target => 0 <= targetWeight target) party)
    by (repeat constructor; vm_compute; discriminate).
  split; [exact H|].
  exact (position_drawn_on_its_interval party (1 # 2) 2 H).
Defined.

Lemma default_rates_draw_uniformly_witness :
  Forall (fun target => tgr target = None) unrated /\
  (pickedPosition unrated (3 # 4) = Some 1%nat <->
   (1 < 2)%nat /\
   (3 # 4) * inject_Z 2 <= inject_Z 1 + 1 /\
   (1%nat = 0%nat \/ inject_Z 1 < (3 # 4) * inject_Z 2)).
Proof.
  assert (H : Forall (fun target => tgr target = None) unrated)
    by (repeat constructor).
  split; [exact H|].
  exact (default_rates_draw_uniformly unrated
           (3 # 4) 1 H).
Defined.

Lemma setRandomTarget_targets_member_witness :
  cursed <> [] /\
  exists target,
    In target cursed /\
    setRandomTarget (option Z) recordTarget cursed (1 # 2) None =
    Some (recordTarget (index target) None).
Proof.
  assert (H : cursed <> []) by discriminate.
  split; [exact H|].
  exact (setRandomTarget_targets_member (option Z) recordTarget cursed (1 # 2)
           None H).
Defined.

Lemma scaling_rates_keeps_choice_witness :
  0 < 10 # 1 /\
  ratesSet rated /\
  pickedPosition
    (scaleRates (10 # 1) rated)
    (1 # 5) =
  pickedPosition rated (1 # 5).
Proof.
  assert (Hc : 0 < 10 # 1) by reflexivity.
  assert (Hset : ratesSet rated).
  { unfold rated. repeat constructor.
    - exists (1 # 2). split; [reflexivity | discriminate].
    - exists (3 # 1). split; [reflexivity | discriminate]. }
  split; [exact Hc|]. split; [exact Hset|].
  exact (scaling_rates_keeps_choice (10 # 1) _ (1 # 5) Hc Hset).
Defined.

End TargetRateMore.

(* ================================================================== *)
(** * Facts about showing, updating and laying out the window *)
(* ================================================================== *)

Module WindowFacts.

Import InBattleStatus WindowControl InBattleStatusFacts Samples MoreSamples.
Open Scope string_scope.
Open Scope Z_scope.

(** ** Methods that only draw *)

Lemma bind_this {B : Type} (k : Window -> Method B) (w : Window) :
  bind this k w = k w w.
Proof. unfold bind, this. destruct (k w w); reflexivity. Qed.

Lemma drawLine1Stats_run (stats : list StatEntry) (statX y fontSize statWidth : Z)
    (w : Window) :
  exists calls,
    drawLine1Stats stats statX y fontSize statWidth w = Returned tt w calls.
Proof.
  revert statX. induction stats as [|stat stats IH]; intros statX.
  - now exists [].
  - destruct (IH (statX + statWidth)) as [calls Hcalls]. eexists.
    cbn [drawLine1Stats]. do 4 apply bind_call. exact Hcalls.
Qed.

Lemma drawLine2Stats_run (stats : list StatEntry) (statX y fontSize statWidth : Z)
    (w : Window) :
  exists calls,
    drawLine2Stats stats statX y fontSize statWidth w = Returned tt w calls.
Proof.
  revert statX. induction stats as [|stat stats IH]; intros statX.
  - now exists [].
  - destruct (IH (statX + statWidth)) as [calls Hcalls]. eexists.
    cbn [drawLine2Stats]. do 4 apply bind_call. exact Hcalls.
Qed.

Lemma drawHeader_run (w : Window) (actor : Actor) :
  _actor w = Some actor ->
  exists calls, drawHeader w = Returned tt w calls.
Proof.
  intros Hactor. unfold drawHeader. rewrite bind_this, Hactor.
  eexists. repeat apply bind_call. reflexivity.
Qed.

Lemma drawStatsSection_run (w : Window) (actor : Actor) :
  _actor w = Some actor ->
  exists calls, drawStatsSection w = Returned tt w calls.
Proof.
  intros Hactor. unfold drawStatsSection. rewrite bind_this, Hactor. cbv zeta.
  match goal with
  | |- context [drawLine1Stats ?l ?a ?b ?c ?d] =>
      destruct (drawLine1Stats_run l a b c d w) as [calls1 H1]
  end.
  match goal with
  | |- context [drawLine2Stats ?l ?a ?b ?c ?d] =>
      destruct (drawLine2Stats_run l a b c d w) as [calls2 H2]
  end.
  eexists. apply bind_call.
  eapply bind_returned; [exact H1|].
  eapply bind_returned; [exact H2|].
  reflexivity.
Qed.

Section ControlFacts.

Variable getStateIconIndex : State -> Z.
Variable getStateDescription : State -> Actor -> Z -> string.
Variable measureTextWidth : Z -> string -> Q.
Variable boxHeight : Z.
Variable sameActor : Actor -> Actor -> bool.

Abbreviation drawState :=
  (drawState getStateIconIndex getStateDescription measureTextWidth).
Abbreviation drawStatesSection :=
  (drawStatesSection getStateIconIndex getStateDescription measureTextWidth).
Abbreviation refresh :=
  (refresh getStateIconIndex getStateDescription measureTextWidth).
Abbreviation refreshIfNeeded :=
  (refreshIfNeeded getStateIconIndex getStateDescription measureTextWidth).
Abbreviation setActor :=
  (setActor getStateIconIndex getStateDescription measureTextWidth sameActor).
Abbreviation hideWindow := (hideWindow boxHeight).
Abbreviation deactivate := (deactivate boxHeight).
Abbreviation updateWindow :=
  (updateWindow getStateIconIndex getStateDescription measureTextWidth).
Abbreviation sceneUpdate :=
  (sceneUpdate getStateIconIndex getStateDescription measureTextWidth
               boxHeight sameActor).
Abbreviation runFrames :=
  (runFrames getStateIconIndex getStateDescription measureTextWidth
             boxHeight sameActor).
Abbreviation createActorInfoWindow := (createActorInfoWindow boxHeight).
Abbreviation Consistent := (Consistent boxHeight).

Lemma set_stateColumns_same (w : Window) :
  set_stateColumns (_stateColumns w) w = w.
Proof. now destruct w. Qed.

Lemma drawStatesSection_calls (w : Window) (actor : Actor) :
  _actor w = Some actor ->
  let sts := filterStates (Some (states actor)) in
  let C := columnsAfter w actor in
  let colWidth := (contentsWidth w - 16) / C in
  let w' := set_stateColumns C w in
  exists title,
    iconPositions title = [] /\
    drawStatesSection w =
    Returned tt w'
      (title ++
       flat_map
         (fun i =>
            callsOf (drawState (nth i sts None)
                               (8 + (Z.of_nat i mod C) * colWidth)
                               (85 + 26 + (Z.of_nat i / C) * 60)
                               (colWidth - 8)) w')
         (seq 0 (List.length sts)))%list.
Proof.
  intros Hactor sts C colWidth w'.
  unfold InBattleStatus.drawStatesSection. rewrite bind_this, Hactor.
  fold sts. subst w' colWidth C. unfold columnsAfter. fold sts.
  destruct (Z.of_nat (List.length sts) =? 0) eqn:Hn.
  - apply Z.eqb_eq in Hn.
    assert (Hnil : sts = []) by (destruct sts; [reflexivity | simpl in Hn; lia]).
    rewrite Hnil, set_stateColumns_same. cbn [List.length seq flat_map].
    eexists. split.
    2: { rewrite app_nil_r. repeat apply bind_call. reflexivity. }
    reflexivity.
  - exists [ SetFontSize 24; ChangeTextColor 0;
             DrawText ("STATES (" ++ numberToString (Z.of_nat (List.length sts)) ++ ")")
                      (8 + 175) (85 - 2) (contentsWidth w - 16) 22 ].
    split; [reflexivity|].
    do 3 apply bind_call.
    rewrite bind_update, bind_this.
    set (w' := set_stateColumns _ w).
    assert (Hactor' : _actor w' = Some actor) by exact Hactor.
    exact (drawStatesLoop_run getStateIconIndex getStateDescription
             measureTextWidth sts _ 0 8 (85 + 26) _ 60 w' actor Hactor').
Qed.

Lemma columnsAfter_keeps (w : Window) (actor : Actor) :
  let w' := set_stateColumns (columnsAfter w actor) w in
  _actor w' = _actor w /\ _visible w' = _visible w /\
  _targetY w' = _targetY w /\ _isActive w' = _isActive w /\
  _lastStateCount w' = _lastStateCount w.
Proof. repeat split. Qed.

Lemma refresh_run (w : Window) (actor : Actor) :
  _actor w = Some actor ->
  exists calls,
    refresh w =
    Returned tt (set_stateColumns (columnsAfter w actor) w) (Clear :: calls).
Proof.
  intros Hactor.
  destruct (drawHeader_run w actor Hactor) as [c1 H1].
  destruct (drawStatsSection_run w actor Hactor) as [c2 H2].
  destruct (drawStatesSection_calls w actor Hactor) as (title & _ & H3).
  unfold InBattleStatus.refresh. rewrite bind_this, Hactor.
  eexists. apply bind_call.
  eapply bind_returned; [exact H1|].
  eapply bind_returned; [exact H2|].
  exact H3.
Qed.

(** ** Redrawing *)

(** X5.  With an actor, [refresh] does not raise, clears the contents
    first, and leaves every field of the window but [_stateColumns]. *)
Theorem refresh_changes_columns_only (w : Window) (actor : Actor) :
  _actor w = Some actor ->
  exists calls,
    refresh w =
    Returned tt (set_stateColumns (columnsAfter w actor) w) (Clear :: calls).
Proof. apply refresh_run. Qed.

Lemma state_count_nonneg (actor : option Actor) :
  0 <= getFilteredStateCount actor.
Proof. destruct actor; simpl; lia. Qed.

Lemma refreshIfNeeded_run (w : Window) (actor : Actor) :
  _actor w = Some actor ->
  let count := getFilteredStateCount (Some actor) in
  refreshIfNeeded w =
  if count =? _lastStateCount w then Returned tt w []
  else refresh (set_lastStateCount count w).
Proof.
  intros Hactor count. unfold InBattleStatus.refreshIfNeeded.
  rewrite bind_this, Hactor. fold count.
  destruct (count =? _lastStateCount w); cbn [negb]; [reflexivity|].
  now rewrite bind_update.
Qed.

Lemma refreshIfNeeded_twice (w : Window) (actor : Actor) :
  _actor w = Some actor ->
  exists w' calls,
    refreshIfNeeded w = Returned tt w' calls /\
    _lastStateCount w' = getFilteredStateCount (Some actor) /\
    refreshIfNeeded w' = Returned tt w' [].
Proof.
  intros Hactor. set (count := getFilteredStateCount (Some actor)).
  rewrite (refreshIfNeeded_run w actor Hactor). fold count.
  destruct (count =? _lastStateCount w) eqn:E.
  - apply Z.eqb_eq in E. exists w, []. repeat split; [now symmetry|].
    rewrite (refreshIfNeeded_run w actor Hactor). fold count.
    now rewrite E, Z.eqb_refl.
  - destruct (refresh_run (set_lastStateCount count w) actor Hactor)
      as [calls Hrun].
    eexists _, _. split; [exact Hrun|]. split; [reflexivity|].
    rewrite (refreshIfNeeded_run _ actor) by exact Hactor. fold count.
    cbn [_lastStateCount set_stateColumns set_lastStateCount].
    now rewrite Z.eqb_refl.
Qed.

(** X6.  With an actor, [refreshIfNeeded] returns with [_lastStateCount]
    equal to the number of shown states, and a second call right after it
    draws nothing. *)
Theorem refreshIfNeeded_settles (w : Window) (actor : Actor) :
  _actor w = Some actor ->
  exists w' calls,
    refreshIfNeeded w = Returned tt w' calls /\
    _lastStateCount w' = getFilteredStateCount (Some actor) /\
    refreshIfNeeded w' = Returned tt w' [].
Proof. apply refreshIfNeeded_twice. Qed.

(** ** Changing the actor *)

Lemma setActor_same_actor (w : Window) (actor : option Actor) :
  isSameActor sameActor (_actor w) actor = true ->
  setActor actor w = Returned tt w [].
Proof.
  intros Hsame. unfold WindowControl.setActor.
  rewrite bind_this, Hsame. reflexivity.
Qed.

Lemma setActor_other_actor (w : Window) (actor : Actor) :
  isSameActor sameActor (_actor w) (Some actor) = false ->
  exists w1 calls1 w2 calls2,
    setActor (Some actor) w = Returned tt w1 (Clear :: calls1) /\
    _actor w1 = Some actor /\ _lastStateCount w1 = -1 /\
    refreshIfNeeded w1 = Returned tt w2 (Clear :: calls2) /\
    _lastStateCount w2 = getFilteredStateCount (Some actor).
Proof.
  intros Hnew.
  set (w0 := set_lastStateCount (-1) (set_actor (Some actor) w)).
  assert (H0 : _actor w0 = Some actor) by reflexivity.
  destruct (refresh_run w0 actor H0) as [calls1 Hrun1].
  set (w1 := set_stateColumns (columnsAfter w0 actor) w0) in *.
  assert (H1 : _actor w1 = Some actor) by reflexivity.
  set (count := getFilteredStateCount (Some actor)).
  destruct (refresh_run (set_lastStateCount count w1) actor H1)
    as [calls2 Hrun2].
  exists w1, calls1. eexists _, calls2.
  split; [| split; [reflexivity | split; [reflexivity | split]]].
  - unfold WindowControl.setActor. rewrite bind_this, Hnew. cbn [negb].
    rewrite !bind_update. exact Hrun1.
  - rewrite (refreshIfNeeded_run w1 actor H1). fold count.
    assert (Hne : (count =? _lastStateCount w1) = false).
    { apply Z.eqb_neq. pose proof (state_count_nonneg (Some actor)).
      change (_lastStateCount w1) with (-1). unfold count. lia. }
    rewrite Hne. exact Hrun2.
  - reflexivity.
Qed.

(** X7.  [setActor] with another actor redraws the window at once and
    leaves [_lastStateCount] at [-1]; since no count is negative, the next
    [refreshIfNeeded] redraws it again and stores the count. *)
Theorem setActor_new_actor (w : Window) (actor : Actor) :
  isSameActor sameActor (_actor w) (Some actor) = false ->
  exists w1 calls1 w2 calls2,
    setActor (Some actor) w = Returned tt w1 (Clear :: calls1) /\
    _actor w1 = Some actor /\ _lastStateCount w1 = -1 /\
    refreshIfNeeded w1 = Returned tt w2 (Clear :: calls2) /\
    _lastStateCount w2 = getFilteredStateCount (Some actor).
Proof. apply setActor_other_actor. Qed.

(** ** Frames of the battle scene *)

Lemma hideWindow_run (w : Window) :
  hideWindow w = Returned tt (set_targetY boxHeight (set_visible false w)) [].
Proof. reflexivity. Qed.

Lemma deactivate_run (w : Window) :
  deactivate w =
  Returned tt
    (set_targetY boxHeight (set_visible false (set_isActive false w))) [].
Proof. reflexivity. Qed.

Lemma showWindow_run (w : Window) :
  showWindow w =
  Returned tt
    (if _isActive w then set_targetY windowY (set_visible true w) else w) [].
Proof. unfold showWindow. rewrite bind_this. now destruct (_isActive w). Qed.

(** [setActor] never raises; it leaves the actor it was given, when there
    was one to give, and touches neither visibility nor activity. *)
Lemma setActor_run (w : Window) (actor : Actor) :
  exists w' calls,
    setActor (Some actor) w = Returned tt w' calls /\
    _actor w' <> None /\
    _visible w' = _visible w /\ _isActive w' = _isActive w /\
    _targetY w' = _targetY w.
Proof.
  destruct (isSameActor sameActor (_actor w) (Some actor)) eqn:E.
  - exists w, []. split; [now apply setActor_same_actor|].
    repeat split. destruct (_actor w); [discriminate | discriminate E].
  - destruct (setActor_other_actor w actor E)
      as (w1 & calls1 & _ & _ & Hrun & Hactor & _).
    exists w1, (Clear :: calls1). split; [exact Hrun|].
    split; [congruence|].
    unfold WindowControl.setActor in Hrun.
    rewrite bind_this, E in Hrun. cbn [negb] in Hrun.
    rewrite !bind_update in Hrun.
    destruct (refresh_run (set_lastStateCount (-1) (set_actor (Some actor) w))
                actor eq_refl) as [calls Hrefresh].
    rewrite Hrefresh in Hrun. injection Hrun as <- _. repeat split.
Qed.

Lemma updateWindow_run (y : Q) (w : Window) :
  exists w' calls,
    updateWindow y w = Returned (slide y w) w' calls /\
    slide y w' = slide y w /\
    _actor w' = _actor w /\ _visible w' = _visible w /\
    _isActive w' = _isActive w /\ _targetY w' = _targetY w /\
    (_visible w = false -> w' = w /\ calls = []).
Proof.
  unfold WindowControl.updateWindow. rewrite bind_this.
  destruct (_actor w) as [actor|] eqn:Hactor; cbn [andb].
  - destruct (_visible w) eqn:Hvis.
    + destruct (refreshIfNeeded_twice w actor Hactor)
        as (w' & calls & Hrun & _ & _).
      exists w', calls. split.
      * unfold bind. rewrite Hrun. cbn. now rewrite app_nil_r.
      * rewrite (refreshIfNeeded_run w actor Hactor) in Hrun.
        destruct (_ =? _) in Hrun.
        -- injection Hrun as <- <-. rewrite Hactor, Hvis.
           repeat split; discriminate.
        -- destruct (refresh_run (set_lastStateCount
                                    (getFilteredStateCount (Some actor)) w)
                       actor Hactor) as [calls' Hrefresh].
           rewrite Hrefresh in Hrun. injection Hrun as <- _.
           cbn. rewrite Hactor, Hvis. repeat split; discriminate.
    + exists w, []. rewrite Hactor, Hvis. repeat split.
  - exists w, []. rewrite Hactor. repeat split.
Qed.

Lemma sceneUpdate_run (frame : Frame) (y : Q) (w : Window) :
  exists w' calls,
    sceneUpdate frame y w = Returned (slide y w') w' calls /\
    (if commandActive frame then
       match battleActor frame with
       | Some _ =>
           _visible w' = controlPressed frame /\ _isActive w' = true /\
           _targetY w' = (if controlPressed frame then windowY else boxHeight) /\
           _actor w' <> None
       | None =>
           _visible w' = _visible w /\ _isActive w' = _isActive w /\
           _targetY w' = _targetY w /\ _actor w' = _actor w
       end
     else
       _visible w' = false /\ _isActive w' = false /\
       _targetY w' = boxHeight /\ _actor w' = _actor w /\ calls = []).
Proof.
  unfold WindowControl.sceneUpdate.
  destruct (commandActive frame).
  - destruct (battleActor frame) as [actor|].
    + destruct (setActor_run w actor)
        as (w1 & c1 & Hset & Hact1 & Hv1 & Ha1 & Ht1).
      set (w2 := set_isActive true w1).
      set (w3 := if controlPressed frame
                 then set_targetY windowY (set_visible true w2)
                 else set_targetY boxHeight (set_visible false w2)).
      destruct (updateWindow_run y w3)
        as (w4 & c4 & Hup & Hslide & Hact4 & Hv4 & Ha4 & Ht4 & _).
      exists w4, (c1 ++ c4)%list. split.
      * rewrite Hslide.
        eapply bind_returned; [| exact Hup].
        rewrite <- (app_nil_r c1).
        eapply bind_returned; [exact Hset|].
        cbv beta. unfold activate. rewrite bind_update. fold w2. subst w3.
        destruct (controlPressed frame);
          [rewrite showWindow_run | rewrite hideWindow_run]; reflexivity.
      * rewrite Hv4, Ha4, Ht4, Hact4. subst w3.
        destruct (controlPressed frame); repeat split; exact Hact1.
    + destruct (updateWindow_run y w)
        as (w4 & c4 & Hup & Hslide & Hact4 & Hv4 & Ha4 & Ht4 & _).
      exists w4, c4. rewrite Hslide. split; [| now repeat split].
      eapply (bind_returned _ _ w w w4 tt _ nil); [reflexivity | exact Hup].
  - set (w1 := set_targetY boxHeight (set_visible false (set_isActive false w))).
    destruct (updateWindow_run y w1)
      as (w4 & c4 & Hup & _ & _ & _ & _ & _ & Hsame).
    destruct (Hsame eq_refl) as [-> ->].
    exists w1, []. split; [| repeat split].
    eapply (bind_returned _ _ w w1 w1 tt _ nil nil);
      [apply deactivate_run | exact Hup].
Qed.

(** X8.  A frame of [Scene_Battle.update] never raises.  After it the
    window is visible exactly when the control key is held, if the command
    window is active and there is a battle actor; unchanged, if it is
    active without a battle actor; hidden and inactive, with nothing drawn,
    if it is not active. *)
Theorem frame_sets_visibility (frame : Frame) (y : Q) (w : Window) :
  exists y' w' calls,
    sceneUpdate frame y w = Returned y' w' calls /\
    _visible w' =
      (if commandActive frame then
         match battleActor frame with
         | Some _ => controlPressed frame
         | None => _visible w
         end
       else false) /\
    (commandActive frame = false -> _isActive w' = false /\ calls = []).
Proof.
  destruct (sceneUpdate_run frame y w) as (w' & calls & Hrun & Hafter).
  exists (slide y w'), w', calls. split; [exact Hrun|].
  destruct (commandActive frame).
  - split; [| discriminate].
    destruct (battleActor frame); apply Hafter.
  - split; [apply Hafter | intros _; split; apply Hafter].
Qed.

Lemma sceneUpdate_consistent (frame : Frame) (y : Q) (w : Window) :
  Consistent w ->
  exists y' w' calls,
    sceneUpdate frame y w = Returned y' w' calls /\ Consistent w'.
Proof.
  intros [Hvis Htarget].
  destruct (sceneUpdate_run frame y w) as (w' & calls & Hrun & Hafter).
  exists (slide y w'), w', calls. split; [exact Hrun|].
  unfold WindowControl.Consistent.
  destruct (commandActive frame).
  - destruct (battleActor frame).
    + destruct Hafter as (Hv & Ha & Ht & Hact). rewrite Hv, Ha, Ht.
      split; [intros _; split; [reflexivity | exact Hact] | reflexivity].
    + destruct Hafter as (Hv & Ha & Ht & Hact). rewrite Hv, Ha, Ht, Hact.
      split; assumption.
  - destruct Hafter as (Hv & Ha & Ht & _). rewrite Hv, Ht.
    split; [discriminate | reflexivity].
Qed.

Lemma runFrames_consistent (frames : list Frame) (y : Q) (w : Window) :
  Consistent w ->
  exists y' w', runFrames frames y w = Some (y', w') /\ Consistent w'.
Proof.
  revert y w. induction frames as [|frame frames IH]; intros y w Hcons.
  - now exists y, w.
  - destruct (sceneUpdate_consistent frame y w Hcons)
      as (y1 & w1 & calls & Hrun & Hcons1).
    cbn [WindowControl.runFrames]. rewrite Hrun. now apply IH.
Qed.

(** X9.  From the window that [createActorInfoWindow] makes, no sequence
    of frames raises, and after it the window is visible only while active
    and with an actor, with [_targetY] at [windowY] when visible and at
    [Graphics.boxHeight] when not. *)
Theorem scene_keeps_window_consistent (frames : list Frame) (y : Q) :
  exists w0 y' w',
    createActorInfoWindow = Returned tt w0 [] /\
    runFrames frames y w0 = Some (y', w') /\
    Consistent w'.
Proof.
  set (w0 := set_targetY boxHeight (set_visible false (initialize boxHeight))).
  assert (H0 : Consistent w0) by (split; [discriminate | reflexivity]).
  destruct (runFrames_consistent frames y w0 H0) as (y' & w' & Hrun & Hcons).
  now exists w0, y', w'.
Qed.

(** X10.  [startActorCommandSelection] does not raise, keeps the window
    consistent and as visible as it was, and with a battle actor leaves it
    active with an actor. *)
Theorem command_selection_activates (actor : option Actor) (w : Window) :
  Consistent w ->
  exists w' calls,
    startActorCommandSelection getStateIconIndex getStateDescription
      measureTextWidth sameActor actor w = Returned tt w' calls /\
    Consistent w' /\
    _visible w' = _visible w /\
    (actor <> None -> _isActive w' = true /\ _actor w' <> None).
Proof.
  intros [Hvis Htarget]. unfold startActorCommandSelection.
  destruct actor as [a|].
  - destruct (setActor_run w a) as (w1 & c1 & Hset & Hact1 & Hv1 & Ha1 & Ht1).
    exists (set_isActive true w1), c1. split; [| split; [| split]].
    + rewrite <- (app_nil_r c1). eapply bind_returned; [exact Hset | reflexivity].
    + split; cbn; [intros _; split; [reflexivity | exact Hact1]|].
      now rewrite Ht1, Hv1.
    + exact Hv1.
    + intros _. split; [reflexivity | exact Hact1].
  - exists w, []. repeat split; try assumption; try (now apply Hvis).
    all: intros H; now contradiction H.
Qed.

(** ** Where the icons go *)

Lemma iconPositions_app (xs ys : list DrawCmd) :
  iconPositions (xs ++ ys) = (iconPositions xs ++ iconPositions ys)%list.
Proof. apply flat_map_app. Qed.

Lemma iconPositions_lineCalls (lines : list string) (x lineY maxWidth : Z) :
  iconPositions (lineCalls lines x lineY maxWidth) = [].
Proof.
  unfold lineCalls, iconPositions.
  induction (combine (seq 0 (List.length lines)) lines) as [|[l line] rest IH];
    [reflexivity | exact IH].
Qed.

Lemma iconPositions_drawState (state : option State) (x y cellWidth : Z)
    (w : Window) (actor : Actor) :
  _actor w = Some actor ->
  iconPositions (callsOf (drawState state x y cellWidth) w) =
  if isPresent state then [(x, y)] else [].
Proof.
  intros Hactor. destruct state as [st|]; [|reflexivity].
  unfold callsOf.
  rewrite (drawState_run getStateIconIndex getStateDescription measureTextWidth
             st x y cellWidth w actor Hactor).
  rewrite !iconPositions_app.
  destruct (isEmpty _); [reflexivity|].
  rewrite iconPositions_app, iconPositions_lineCalls. reflexivity.
Qed.

Lemma filterStates_present (all : list (option State)) (i : nat) :
  (i < List.length (filterStates (Some all)))%nat ->
  isPresent (nth i (filterStates (Some all)) None) = true.
Proof.
  intros Hi.
  assert (Hin : In (nth i (filterStates (Some all)) None) (filterStates (Some all)))
    by now apply nth_In.
  cbn [filterStates] in Hin. apply filter_In in Hin.
  destruct Hin as [_ Hkeep]. now apply andb_true_iff in Hkeep.
Qed.

(** The cell of state [i] when there are [C] columns of width [colWidth]. *)
Lemma icons_on_grid (w : Window) (actor : Actor) :
  _actor w = Some actor ->
  let n := List.length (filterStates (Some (states actor))) in
  let C := columnsAfter w actor in
  let colWidth := (contentsWidth w - 16) / C in
  iconPositions (callsOf drawStatesSection w) =
  map (fun i => (8 + (Z.of_nat i mod C) * colWidth,
                 85 + 26 + (Z.of_nat i / C) * 60))
      (seq 0 n).
Proof.
  intros Hactor n C colWidth.
  destruct (drawStatesSection_calls w actor Hactor) as (title & Htitle & Hrun).
  unfold callsOf. rewrite Hrun, iconPositions_app, Htitle. cbn [app].
  fold n. fold C. fold colWidth.
  assert (Hall : forall i, In i (seq 0 n) -> (i < n)%nat)
    by (intros i Hi; apply in_seq in Hi; lia).
  induction (seq 0 n) as [|i rest IH]; [reflexivity|].
  cbn [flat_map map]. rewrite iconPositions_app.
  rewrite (iconPositions_drawState _ _ _ _ _ actor) by exact Hactor.
  rewrite filterStates_present by (apply Hall; now left).
  cbn [app]. f_equal. apply IH. intros j Hj. apply Hall. now right.
Qed.

Lemma columnsFor_range (n : Z) : 2 <= columnsFor n <= 4.
Proof.
  unfold columnsFor. destruct (9 <? n); [lia|]. destruct (6 <? n); lia.
Qed.

Lemma columnsAfter_shown (w : Window) (actor : Actor) :
  let n := Z.of_nat (List.length (filterStates (Some (states actor)))) in
  0 < n -> columnsAfter w actor = columnsFor n.
Proof.
  intros n Hn. unfold columnsAfter. fold n.
  destruct (n =? 0) eqn:E; [apply Z.eqb_eq in E; lia | reflexivity].
Qed.


(** X12.  When the contents are at least 16 wide, every cell starts at
    [x >= 8] and ends, one column width further, within the width left for
    the states. *)
Theorem cells_inside_content_width (w : Window) (actor : Actor) :
  _actor w = Some actor ->
  16 <= contentsWidth w ->
  let colWidth := (contentsWidth w - 16) / columnsAfter w actor in
  Forall (fun p => 8 <= fst p /\ fst p + colWidth <= 8 + (contentsWidth w - 16))
         (iconPositions (callsOf drawStatesSection w)).
Proof.
  intros Hactor Hwide colWidth.
  rewrite (icons_on_grid w actor Hactor). fold colWidth.
  apply Forall_forall. intros p Hp. apply in_map_iff in Hp.
  destruct Hp as (i & <- & Hi). apply in_seq in Hi. cbn [fst].
  set (n := Z.of_nat (List.length (filterStates (Some (states actor))))).
  assert (Hn : 0 < n) by (unfold n; lia).
  pose proof (columnsAfter_shown w actor Hn) as HC. fold n in HC.
  pose proof (columnsFor_range n) as Hrange.
  set (C := columnsAfter w actor) in *. rewrite <- HC in Hrange.
  set (avail := contentsWidth w - 16) in *.
  assert (Hcol : 0 <= Z.of_nat i mod C < C) by (apply Z.mod_pos_bound; lia).
  assert (Hcw : 0 <= colWidth) by (apply Z.div_pos; lia).
  assert (Hfit : C * colWidth <= avail)
    by (apply Z.mul_div_le; lia).
  split; nia.
Qed.

(** X13.  In a window of the plugin's height, every state starts above
    the bottom of the contents exactly when at most twelve states are
    shown; the thirteenth goes to a fourth row, below the contents. *)
Theorem rows_inside_contents_up_to_twelve (w : Window) (actor : Actor) :
  _actor w = Some actor ->
  height w = windowHeight ->
  let n := List.length (filterStates (Some (states actor))) in
  Forall (fun p => snd p < contentsHeight w)
         (iconPositions (callsOf drawStatesSection w)) <->
  (n <= 12)%nat.
Proof.
  intros Hactor Hheight n.
  rewrite (icons_on_grid w actor Hactor). fold n.
  assert (Hch : contentsHeight w = 284)
    by (unfold contentsHeight; rewrite Hheight; reflexivity).
  rewrite Hch, Forall_forall. split.
  - intros Hall. destruct (Nat.le_gt_cases n 12) as [Hle | Hgt]; [exact Hle|].
    exfalso.
    assert (Hn : 0 < Z.of_nat n) by lia.
    pose proof (columnsAfter_shown w actor Hn) as HC.
    assert (H4 : columnsFor (Z.of_nat n) = 4).
    { unfold columnsFor. replace (9 <? Z.of_nat n) with true; [reflexivity|].
      symmetry. apply Z.ltb_lt. lia. }
    fold n in HC. rewrite H4 in HC.
    specialize (Hall (8 + (Z.of_nat 12 mod columnsAfter w actor) *
                            ((contentsWidth w - 16) / columnsAfter w actor),
                      111 + (Z.of_nat 12 / columnsAfter w actor) * 60)).
    rewrite HC in Hall. cbn [snd] in Hall.
    change (Z.of_nat 12 / 4) with 3 in Hall.
    assert (111 + 3 * 60 < 284); [| lia].
    apply Hall. apply in_map_iff. exists 12%nat.
    split; [reflexivity | apply in_seq; lia].
  - intros Hle p Hp. apply in_map_iff in Hp.
    destruct Hp as (i & <- & Hi). apply in_seq in Hi. cbn [snd].
    assert (Hn : 0 < Z.of_nat n) by lia.
    pose proof (columnsAfter_shown w actor Hn) as HC. fold n in HC.
    rewrite HC.
    assert (Hrow : Z.of_nat i / columnsFor (Z.of_nat n) < 3).
    { pose proof (columnsFor_range (Z.of_nat n)).
      apply Z.div_lt_upper_bound; [lia|].
      unfold columnsFor.
      destruct (9 <? Z.of_nat n) eqn:E9; [lia|].
      destruct (6 <? Z.of_nat n) eqn:E6.
      - apply Z.ltb_ge in E9. lia.
      - apply Z.ltb_ge in E6. lia. }
    lia.
Qed.

(** X14.  When the contents are at least 20 wide, no two states are drawn
    at the same place. *)
Theorem cells_do_not_overlap (w : Window) (actor : Actor) :
  _actor w = Some actor ->
  20 <= contentsWidth w ->
  NoDup (iconPositions (callsOf drawStatesSection w)).
Proof.
  intros Hactor Hwide.
  rewrite (icons_on_grid w actor Hactor).
  set (n := List.length (filterStates (Some (states actor)))).
  destruct (Nat.eq_dec n 0) as [-> | Hn]; [constructor|].
  assert (Hn' : 0 < Z.of_nat n) by lia.
  pose proof (columnsAfter_shown w actor Hn') as HC. fold n in HC.
  pose proof (columnsFor_range (Z.of_nat n)) as Hrange. rewrite <- HC in Hrange.
  set (C := columnsAfter w actor) in *.
  set (colWidth := (contentsWidth w - 16) / C).
  assert (Hcw : 0 < colWidth)
    by (apply Z.div_str_pos; lia).
  apply NoDup_map_NoDup_ForallPairs; [| apply seq_NoDup].
  intros i j _ _ Heq.
  pose proof (f_equal fst Heq) as Hx. pose proof (f_equal snd Heq) as Hy.
  cbn [fst snd] in Hx, Hy.
  assert (Hmod : Z.of_nat i mod C = Z.of_nat j mod C)
    by (apply (Z.mul_cancel_r _ _ colWidth); lia).
  assert (Hdiv : Z.of_nat i / C = Z.of_nat j / C) by lia.
  pose proof (Z.div_mod (Z.of_nat i) C ltac:(lia)).
  pose proof (Z.div_mod (Z.of_nat j) C ltac:(lia)).
  rewrite Hmod, Hdiv in *. lia.
Qed.

End ControlFacts.

(** ** The slide *)

(** X15.  With a slide speed above 1, a window within half a pixel of its
    target stays where it is; otherwise its distance to the target is
    multiplied by [(speed - 1) / speed], on the same side of the target. *)
Theorem slide_approaches_target (y : Q) (w : Window) :
  1 < _slideSpeed w ->
  let target := inject_Z (_targetY w) in
  let speed := inject_Z (_slideSpeed w) in
  ((Qabs (y - target) <= 1 # 2)%Q -> slide y w = y) /\
  ((1 # 2 < Qabs (y - target))%Q ->
   (slide y w - target == (speed - 1) / speed * (y - target))%Q /\
   (Qabs (slide y w - target) < Qabs (y - target))%Q).
Proof.
  intros Hspeed target speed.
  assert (Hs : (1 < speed)%Q).
  { unfold speed. change 1%Q with (inject_Z 1). rewrite <- Zlt_Qlt. exact Hspeed. }
  unfold slide. fold target. fold speed. split.
  - intros Hnear. apply Qle_bool_iff in Hnear. now rewrite Hnear.
  - intros Hfar.
    assert (Hb : Qle_bool (Qabs (y - target)) (1 # 2) = false).
    { destruct (Qle_bool _ _) eqn:E; [|reflexivity].
      apply Qle_bool_iff in E. exfalso. apply (Qlt_not_le _ _ Hfar E). }
    rewrite Hb. cbn [negb].
    assert (Heq : ((y * (speed - 1) + target) / speed - target ==
                   (speed - 1) / speed * (y - target))%Q).
    { field. intros H0. rewrite H0 in Hs. discriminate Hs. }
    split; [exact Heq|].
    rewrite Heq, Qabs_Qmult.
    assert (Hinv : (0 < / speed)%Q)
      by (apply Qinv_lt_0_compat; apply Qlt_trans with 1%Q; [reflexivity | exact Hs]).
    assert (Hk : ((speed - 1) / speed == 1 - / speed)%Q).
    { field. intros H0. rewrite H0 in Hs. discriminate Hs. }
    assert (Hinv1 : (/ speed < 1)%Q).
    { apply Qlt_shift_inv_r; [apply Qlt_trans with 1%Q; [reflexivity | exact Hs]|].
      rewrite Qmult_1_l. exact Hs. }
    rewrite Hk, Qabs_pos by lra.
    assert (Hd : (0 < Qabs (y - target))%Q) by lra.
    apply Qlt_minus_iff.
    setoid_replace (Qabs (y - target) + - ((1 - / speed) * Qabs (y - target)))%Q
      with (/ speed * Qabs (y - target))%Q by ring.
    now apply Qmult_lt_0_compat.
Qed.

(** ** More on wrapping *)

Lemma append_assoc (a b c : string) : (a ++ b) ++ c = a ++ (b ++ c).
Proof. induction a as [|ch a IH]; [reflexivity | cbn; now rewrite IH]. Qed.

Lemma append_empty_r (a : string) : a ++ "" = a.
Proof. induction a as [|ch a IH]; [reflexivity | cbn; now rewrite IH]. Qed.

Lemma isEmpty_append (a b : string) :
  isEmpty (a ++ b) = isEmpty a && isEmpty b.
Proof. now destruct a. Qed.

Lemma isEmpty_true (a : string) : isEmpty a = true -> a = "".
Proof. now destruct a. Qed.

Lemma extendLine_nonempty (currentLine word : string) :
  isEmpty word = false -> isEmpty (extendLine currentLine word) = false.
Proof.
  intros Hw. unfold extendLine. rewrite !isEmpty_append, Hw.
  now rewrite !andb_false_r.
Qed.

Lemma concat_cons_nonempty (line : string) (lines : list string) :
  lines <> [] ->
  String.concat " " (line :: lines) = line ++ " " ++ String.concat " " lines.
Proof. destruct lines; [congruence | reflexivity]. Qed.

Section WrapMore.

Variable measure : string -> Q.
Variable maxWidth : Z.

Abbreviation wrapLoop := (wrapLoop measure maxWidth).
Abbreviation wrapDescription := (wrapDescription measure maxWidth).
Abbreviation greedyLines := (greedyLines measure maxWidth).
Abbreviation tooWide := (tooWide measure maxWidth).

Lemma wrapLoop_lines (all words lines : list string) (currentLine : string) :
  let ok := fun line => tooWide line = false \/ In line all \/ line = "" in
  (forall word, In word words -> In word all) ->
  Forall ok lines -> ok currentLine ->
  Forall ok (fst (wrapLoop words lines currentLine)) /\
  ok (snd (wrapLoop words lines currentLine)).
Proof.
  intros ok. revert lines currentLine.
  induction words as [|word words IH]; intros lines cur Hsub Hlines Hcur.
  - split; assumption.
  - cbn [InBattleStatus.wrapLoop].
    assert (Hsub' : forall x, In x words -> In x all)
      by (intros x Hx; apply Hsub; now right).
    destruct (tooWide (extendLine cur word)) eqn:Hwide.
    + assert (Hlines' : Forall ok (lines ++ [cur]))
        by (apply Forall_app; split; [exact Hlines | now constructor]).
      assert (Hword : ok word) by (right; left; apply Hsub; now left).
      destruct (3 <=? List.length (lines ++ [cur]))%nat.
      * split; assumption.
      * now apply IH.
    + apply IH; [exact Hsub' | exact Hlines | now left].
Qed.

(** X16.  A line of a wrapped description that is wider than the available
    width is a single word of the description (or the empty line pushed
    before a first word that does not fit). *)
Theorem only_single_words_overflow (description line : string) :
  In line (wrapDescription description) ->
  tooWide line = false \/ In line (splitOnSpace description) \/ line = "".
Proof.
  intros Hin. unfold InBattleStatus.wrapDescription in Hin.
  pose proof (wrapLoop_lines (splitOnSpace description) (splitOnSpace description)
                [] "" (fun _ H => H) (Forall_nil _) (or_intror (or_intror eq_refl)))
    as [Hlines Hcur].
  destruct (wrapLoop (splitOnSpace description) [] "") as [lines cur].
  cbn [fst snd] in Hlines, Hcur.
  rewrite Forall_forall in Hlines.
  destruct (negb (isEmpty cur) && (List.length lines <? 3)%nat).
  - apply in_app_or in Hin. destruct Hin as [Hin | [<- | []]];
      [now apply Hlines | exact Hcur].
  - now apply Hlines.
Qed.

Lemma greedyLines_keep_nonempty (words : list string) (currentLine : string) :
  isEmpty currentLine = false ->
  filter (fun line => negb (isEmpty line)) (greedyLines words currentLine) <> [].
Proof.
  revert currentLine. induction words as [|word words IH]; intros cur Hcur.
  - cbn. rewrite Hcur. cbn. rewrite Hcur. discriminate.
  - cbn [InBattleStatus.greedyLines].
    destruct (Qle_bool _ _).
    + apply IH. unfold extendLine. rewrite isEmpty_append, Hcur. reflexivity.
    + cbn [filter]. rewrite Hcur. discriminate.
Qed.

Lemma greedyLines_join (words : list string) (currentLine : string) :
  Forall (fun word => isEmpty word = false) words ->
  String.concat " "
    (filter (fun line => negb (isEmpty line)) (greedyLines words currentLine)) =
  if isEmpty currentLine then String.concat " " words
  else String.concat " " (currentLine :: words).
Proof.
  intros Hwords. revert currentLine.
  induction Hwords as [|word words Hword _ IH]; intros cur.
  - cbn [InBattleStatus.greedyLines]. destruct (isEmpty cur) eqn:E; cbn; [reflexivity|].
    now rewrite E.
  - cbn [InBattleStatus.greedyLines].
    destruct (Qle_bool _ _).
    + rewrite IH, (extendLine_nonempty cur word Hword).
      unfold extendLine. destruct (isEmpty cur) eqn:E.
      * apply isEmpty_true in E. subst cur. reflexivity.
      * destruct words as [|word' words]; [reflexivity|].
        cbn [String.concat]. now rewrite !append_assoc.
    + cbn [filter]. destruct (isEmpty cur) eqn:E; cbn [negb].
      * rewrite IH, Hword. reflexivity.
      * rewrite concat_cons_nonempty
          by (apply greedyLines_keep_nonempty; exact Hword).
        rewrite IH, Hword. reflexivity.
Qed.

(** X17.  When the description has no empty word and wraps to fewer than
    three lines, its non-empty lines joined by single spaces are the
    description again. *)
Theorem short_wrapping_loses_nothing (description : string) :
  Forall (fun word => isEmpty word = false) (splitOnSpace description) ->
  (List.length (wrapDescription description) < 3)%nat ->
  String.concat " "
    (filter (fun line => negb (isEmpty line)) (wrapDescription description)) =
  description.
Proof.
  intros Hwords Hshort.
  rewrite wrapDescription_greedy in *.
  assert (Hall : firstn 3 (greedyLines (splitOnSpace description) "") =
                 greedyLines (splitOnSpace description) "").
  { apply firstn_all2. rewrite length_firstn in Hshort. lia. }
  rewrite Hall, greedyLines_join by exact Hwords.
  apply splitOnSpace_concat.
Qed.

End WrapMore.

(** ** Header and stats *)

(** X18.  For an actor whose first two equipment slots are missing or
    [null], [drawHeader] does not raise and draws [NONE] for the weapon and
    for the charm. *)
Theorem missing_equipment_is_drawn_as_none (w : Window) (actor : Actor) :
  _actor w = Some actor ->
  (forall e, nth_error (equips actor) 0 <> Some (Some e)) ->
  (forall e, nth_error (equips actor) 1 <> Some (Some e)) ->
  exists calls,
    drawHeader w = Returned tt w calls /\
    In (DrawText "NONE" 192 8 85 22) calls /\
    In (DrawText "NONE" 337 8 120 22) calls.
Proof.
  intros Hactor Hweapon Hcharm.
  assert (H0 : equipLabel (equips actor) 0 = "NONE").
  { unfold equipLabel. destruct (nth_error (equips actor) 0) as [[e|]|] eqn:E;
      [exfalso; now apply (Hweapon e) | reflexivity | reflexivity]. }
  assert (H1 : equipLabel (equips actor) 1 = "NONE").
  { unfold equipLabel. destruct (nth_error (equips actor) 1) as [[e|]|] eqn:E;
      [exfalso; now apply (Hcharm e) | reflexivity | reflexivity]. }
  unfold drawHeader. rewrite bind_this, Hactor. cbv zeta. rewrite H0, H1.
  eexists. split; [repeat apply bind_call; reflexivity|].
  cbn. split; tauto.
Qed.

(** X19.  [drawStatsSection] draws the evasion label at (220, 56) exactly
    when the evasion of the actor is positive, and the hit-rate label at
    [x = 95] then and at [x = 145] otherwise. *)
Theorem evasion_drawn_when_positive (w : Window) (actor : Actor) :
  _actor w = Some actor ->
  (In (DrawText "EVASION: " 220 56 90 26) (callsOf drawStatsSection w) <->
   (0 < eva actor)%Q) /\
  In (DrawText "HIT RATE: " (if Qle_bool (eva actor) 0 then 145 else 95)
               56 90 26)
     (callsOf drawStatsSection w).
Proof.
  intros Hactor.
  unfold callsOf, drawStatsSection, bind, call, this, ret. rewrite Hactor.
  cbv zeta.
  destruct (Qle_bool (eva actor) 0) eqn:E; cbn [negb].
  - apply Qle_bool_iff in E. split; [split|].
    + cbn. intros H.
      repeat (destruct H as [H | H]; [try discriminate H; injection H; intros; lia|]).
      contradiction.
    + intros Hpos. exfalso. apply (Qlt_not_le _ _ Hpos E).
    + cbn. tauto.
  - assert (Hpos : (0 < eva actor)%Q).
    { apply Qnot_le_lt. intros Hle. apply Qle_bool_iff in Hle. congruence. }
    split; [split; [intros _; exact Hpos | intros _; cbn; tauto] | cbn; tauto].
Qed.

(** X20.  [convertMagicParamRate] keeps the direction of a rate (at least
    1 and at most 1.5 above 1, at most 1 and at least 0.5 below 1, exactly 1
    at 1), and differs from 1 only within 0.001 of an entry of its table. *)
Theorem convertMagicParamRate_table (rawRate : Q) :
  let shown := convertMagicParamRate rawRate in
  ((1 < rawRate)%Q -> (1 <= shown <= 3 # 2)%Q) /\
  ((rawRate < 1)%Q -> (1 # 2 <= shown <= 1)%Q) /\
  (rawRate == 1 -> shown = 1%Q) /\
  (~ shown == 1 ->
   exists entry, In entry [4; 6; 8; 1 # 2; 1 # 4; 1 # 8]%Q /\
                 (Qabs (rawRate - entry) < 1 # 1000)%Q).
Proof.
  intros shown. subst shown. unfold convertMagicParamRate.
  assert (Hnear : forall t, near rawRate t = true ->
                            (Qabs (rawRate - t) < 1 # 1000)%Q).
  { intros t H. unfold near in H. apply negb_true_iff in H.
    apply Qnot_le_lt. intros Hle. apply Qle_bool_iff in Hle. congruence. }
  destruct (Qle_bool rawRate 1) eqn:E1; cbn [negb].
  - apply Qle_bool_iff in E1.
    destruct (Qle_bool 1 rawRate) eqn:E2; cbn [negb].
    + apply Qle_bool_iff in E2.
      repeat split; try lra; try reflexivity.
    + assert (Hlt : (rawRate < 1)%Q).
      { apply Qnot_le_lt. intros Hle. apply Qle_bool_iff in Hle. congruence. }
      destruct (near rawRate (1 # 2)) eqn:N1;
        [| destruct (near rawRate (1 # 4)) eqn:N2;
           [| destruct (near rawRate (1 # 8)) eqn:N3 ]];
        (split; [intros; lra|]); (split; [intros; lra|]);
        (split; [intros; lra|]); intros Hne.
      * exists (1 # 2)%Q. split; [cbn; tauto | now apply Hnear].
      * exists (1 # 4)%Q. split; [cbn; tauto | now apply Hnear].
      * exists (1 # 8)%Q. split; [cbn; tauto | now apply Hnear].
      * exfalso. now apply Hne.
  - assert (Hgt : (1 < rawRate)%Q).
    { apply Qnot_le_lt. intros Hle. apply Qle_bool_iff in Hle. congruence. }
    destruct (near rawRate 4) eqn:N1;
      [| destruct (near rawRate 6) eqn:N2;
         [| destruct (near rawRate 8) eqn:N3 ]];
      (split; [intros; lra|]); (split; [intros; lra|]);
      (split; [intros; lra|]); intros Hne.
    + exists 4%Q. split; [cbn; tauto | now apply Hnear].
    + exists 6%Q. split; [cbn; tauto | now apply Hnear].
    + exists 8%Q. split; [cbn; tauto | now apply Hnear].
    + exfalso. now apply Hne.
Qed.

(** ** Runs on sample data *)

Example frames_of_a_turn :
  option_map (fun '(y, w) => (Qred y, _visible w, _isActive w, _targetY w))
    (runFrames sampleIcon sampleDescription sampleMeasure 624 sameName
       [ mkFrame true (Some hero) false; mkFrame true (Some hero) true;
         mkFrame true (Some hero) true ]
       (inject_Z 624) (initialize 624)) =
  Some ((125204 # 225)%Q, true, true, 100).
Proof. reflexivity. Qed.

Example thirteen_states_overflow :
  nth 12 (iconPositions
            (callsOf (drawStatesSection sampleIcon sampleDescription sampleMeasure)
                     strangerWindow)) (0, 0) = (8, 291) /\
  contentsHeight strangerWindow = 284.
Proof. split; reflexivity. Qed.

Lemma refresh_changes_columns_only_witness :
  _actor heroWindow = Some hero /\
  exists calls,
    refresh sampleIcon sampleDescription sampleMeasure heroWindow =
    Returned tt (set_stateColumns (columnsAfter heroWindow hero) heroWindow)
             (Clear :: calls).
Proof.
  split; [reflexivity|].
  apply (refresh_changes_columns_only sampleIcon sampleDescription sampleMeasure
           heroWindow hero).
  reflexivity.
Defined.

Lemma refreshIfNeeded_settles_witness :
  _actor heroWindow = Some hero /\
  exists w' calls,
    refreshIfNeeded sampleIcon sampleDescription sampleMeasure heroWindow =
      Returned tt w' calls /\
    _lastStateCount w' = getFilteredStateCount (Some hero) /\
    refreshIfNeeded sampleIcon sampleDescription sampleMeasure w' =
      Returned tt w' [].
Proof.
  split; [reflexivity|].
  apply (refreshIfNeeded_settles sampleIcon sampleDescription sampleMeasure
           heroWindow hero).
  reflexivity.
Defined.

Lemma setActor_new_actor_witness :
  isSameActor sameName (_actor (initialize 624)) (Some hero) = false /\
  exists w1 calls1 w2 calls2,
    setActor sampleIcon sampleDescription sampleMeasure sameName (Some hero)
             (initialize 624) = Returned tt w1 (Clear :: calls1) /\
    _actor w1 = Some hero /\ _lastStateCount w1 = -1 /\
    refreshIfNeeded sampleIcon sampleDescription sampleMeasure w1 =
      Returned tt w2 (Clear :: calls2) /\
    _lastStateCount w2 = getFilteredStateCount (Some hero).
Proof.
  split; [reflexivity|].
  apply (setActor_new_actor sampleIcon sampleDescription sampleMeasure sameName
           (initialize 624) hero).
  reflexivity.
Defined.

Lemma command_selection_activates_witness :
  Consistent 624 (initialize 624) /\
  exists w' calls,
    startActorCommandSelection sampleIcon sampleDescription sampleMeasure
      sameName (Some hero) (initialize 624) = Returned tt w' calls /\
    Consistent 624 w' /\
    _visible w' = _visible (initialize 624) /\
    (Some hero <> None -> _isActive w' = true /\ _actor w' <> None).
Proof.
  assert (H : Consistent 624 (initialize 624))
    by (split; [discriminate | reflexivity]).
  split; [exact H|].
  exact (command_selection_activates sampleIcon sampleDescription sampleMeasure
           624 sameName (Some hero) (initialize 624) H).
Defined.


Lemma cells_inside_content_width_witness :
  _actor strangerWindow = Some stranger /\
  16 <= contentsWidth strangerWindow /\
  Forall (fun p => 8 <= fst p /\
                   fst p + (contentsWidth strangerWindow - 16) /
                           columnsAfter strangerWindow stranger
                   <= 8 + (contentsWidth strangerWindow - 16))
         (iconPositions
            (callsOf (drawStatesSection sampleIcon sampleDescription sampleMeasure)
                     strangerWindow)).
Proof.
  split; [reflexivity|]. split; [vm_compute; discriminate|].
  apply (cells_inside_content_width sampleIcon sampleDescription sampleMeasure
           strangerWindow stranger); [reflexivity | vm_compute; discriminate].
Defined.

Lemma rows_inside_contents_up_to_twelve_witness :
  _actor strangerWindow = Some stranger /\
  height strangerWindow = windowHeight /\
  (Forall (fun p => snd p < contentsHeight strangerWindow)
          (iconPositions
             (callsOf (drawStatesSection sampleIcon sampleDescription sampleMeasure)
                      strangerWindow)) <->
   (List.length (filterStates (Some (states stranger))) <= 12)%nat).
Proof.
  split; [reflexivity|]. split; [reflexivity|].
  apply (rows_inside_contents_up_to_twelve sampleIcon sampleDescription
           sampleMeasure strangerWindow stranger); reflexivity.
Defined.

Lemma cells_do_not_overlap_witness :
  _actor strangerWindow = Some stranger /\
  20 <= contentsWidth strangerWindow /\
  NoDup (iconPositions
           (callsOf (drawStatesSection sampleIcon sampleDescription sampleMeasure)
                    strangerWindow)).
Proof.
  split; [reflexivity|]. split; [vm_compute; discriminate|].
  apply (cells_do_not_overlap sampleIcon sampleDescription sampleMeasure
           strangerWindow stranger); [reflexivity | vm_compute; discriminate].
Defined.

Lemma slide_approaches_target_witness :
  1 < _slideSpeed heroWindow /\
  ((1 # 2 < Qabs (624 - inject_Z (_targetY heroWindow)))%Q ->
   (slide 624 heroWindow - inject_Z (_targetY heroWindow) ==
    (inject_Z (_slideSpeed heroWindow) - 1) / inject_Z (_slideSpeed heroWindow) *
    (624 - inject_Z (_targetY heroWindow)))%Q /\
   (Qabs (slide 624 heroWindow - inject_Z (_targetY heroWindow)) <
    Qabs (624 - inject_Z (_targetY heroWindow)))%Q).
Proof.
  assert (H : 1 < _slideSpeed heroWindow) by reflexivity.
  split; [exact H|].
  exact (proj2 (slide_approaches_target 624 heroWindow H)).
Defined.

Lemma only_single_words_overflow_witness :
  In "ABCDEFGH" (wrapDescription (sampleMeasure 16) 40 "ABCDEFGH IJ") /\
  (tooWide (sampleMeasure 16) 40 "ABCDEFGH" = false \/
   In "ABCDEFGH" (splitOnSpace "ABCDEFGH IJ") \/ "ABCDEFGH" = "").
Proof.
  assert (H : In "ABCDEFGH" (wrapDescription (sampleMeasure 16) 40 "ABCDEFGH IJ"))
    by (right; left; reflexivity).
  split; [exact H|].
  exact (only_single_words_overflow (sampleMeasure 16) 40 "ABCDEFGH IJ"
           "ABCDEFGH" H).
Defined.

Lemma short_wrapping_loses_nothing_witness :
  Forall (fun word => isEmpty word = false)
         (splitOnSpace "LOSES HP AT THE END OF EVERY TURN") /\
  (List.length (wrapDescription (sampleMeasure 16) 176
                  "LOSES HP AT THE END OF EVERY TURN") < 3)%nat /\
  String.concat " "
    (filter (fun line => negb (isEmpty line))
            (wrapDescription (sampleMeasure 16) 176
               "LOSES HP AT THE END OF EVERY TURN")) =
  "LOSES HP AT THE END OF EVERY TURN".
Proof.
  assert (H1 : Forall (fun word => isEmpty word = false)
                      (splitOnSpace "LOSES HP AT THE END OF EVERY TURN"))
    by (vm_compute; repeat constructor).
  assert (H2 : (List.length (wrapDescription (sampleMeasure 16) 176
                               "LOSES HP AT THE END OF EVERY TURN") < 3)%nat)
    by (vm_compute; lia).
  split; [exact H1|]. split; [exact H2|].
  exact (short_wrapping_loses_nothing (sampleMeasure 16) 176 _ H1 H2).
Defined.

Lemma missing_equipment_is_drawn_as_none_witness :
  _actor strangerWindow = Some stranger /\
  (forall e, nth_error (equips stranger) 0 <> Some (Some e)) /\
  (forall e, nth_error (equips stranger) 1 <> Some (Some e)) /\
  exists calls,
    drawHeader strangerWindow = Returned tt strangerWindow calls /\
    In (DrawText "NONE" 192 8 85 22) calls /\
    In (DrawText "NONE" 337 8 120 22) calls.
Proof.
  assert (H0 : forall e, nth_error (equips stranger) 0 <> Some (Some e))
    by (intros e; discriminate).
  assert (H1 : forall e, nth_error (equips stranger) 1 <> Some (Some e))
    by (intros e; discriminate).
  split; [reflexivity|]. split; [exact H0|]. split; [exact H1|].
  exact (missing_equipment_is_drawn_as_none strangerWindow stranger eq_refl H0 H1).
Defined.

Lemma evasion_drawn_when_positive_witness :
  _actor strangerWindow = Some stranger /\
  In (DrawText "EVASION: " 220 56 90 26) (callsOf drawStatsSection strangerWindow).
Proof.
  split; [reflexivity|].
  apply (proj1 (evasion_drawn_when_positive strangerWindow stranger eq_refl)).
  reflexivity.
Defined.

End WindowFacts.
